(** * NinjaRipper 2 [.nr] to Wavefront [.obj] converter

    A shallow embedding of [NinjaRipper2-OBJ.py] (class [NR2ObjConverter])
    and the properties of its container reader and geometry decoder.

    Conventions of the embedding.
    - Python [bytes] are [list byte]; Python integers are [Z].
    - A slice [data[lo:hi]] with non-negative bounds is [slice data lo hi];
      like Python it clamps to the bytes that exist.
    - [struct.unpack] raises [struct.error] unless the buffer has exactly
      the size of the format; functions that can raise return a [result].
    - A Python float obtained from the format [<f] is determined by the
      four bytes it is read from: it is carried as that 32-bit pattern.
    - The methods that touch [self] or the file system run in the monad
      [M] over a [world]: the converter instance and the files.
    - The [while] loop of [read_nr_file] has no termination argument in the
      source, so it is run with a bound on the number of iterations;
      [Spin] is the outcome of a run that needs more iterations.
    - The parts of [convert_to_obj] that properties refer to are named:
      [select_vert_chunk] (lines 125-126), [write_faces] (lines 147-150),
      [write_obj] (lines 136-150), [convert_chunks] (lines 114-150) and
      [convert_body] (the body of the [try]).
    - Opening the output file for writing is taken to succeed.
    - Console output ([print], [traceback.print_exc]) is not modelled. *)

From Stdlib Require Import ZArith Lia String.
From Stdlib.Strings Require Import Byte.
From stdpp Require Import base list strings gmap pretty.

#[local] Open Scope Z_scope.

(** ** Python values *)

Inductive exn : Type :=
  | ValueError (msg : string)
  | struct_error
  | FileNotFoundError
  | IndexError.

Inductive result (A : Type) : Type :=
  | Ok (a : A)
  | Raise (e : exn).
Arguments Ok {A} a.
Arguments Raise {A} e.

Definition rbind {A B} (r : result A) (k : A -> result B) : result B :=
  match r with
  | Ok a => k a
  | Raise e => Raise e
  end.

Declare Scope result_scope.
Delimit Scope result_scope with res.
Notation "x <- r ; k" := (rbind r (fun x => k))
  (at level 100, r at next level, right associativity,
   format "'[v' x  <-  r ; '/' k ']'") : result_scope.

(** [len(data)] *)
Definition len {A} (data : list A) : Z := Z.of_nat (length data).

(** [data[lo:hi]] for [0 <= lo] and [0 <= hi] *)
Definition slice {A} (data : list A) (lo hi : Z) : list A :=
  take (Z.to_nat (hi - lo)) (drop (Z.to_nat lo) data).

(** [seq[i]] for [0 <= i] *)
Definition index {A} (l : list A) (i : Z) : result A :=
  match l !! Z.to_nat i with
  | Some x => Ok x
  | None => Raise IndexError
  end.

Definition byte_val (b : byte) : Z := Z.of_N (Byte.to_N b).

(** The little-endian value of a byte string. *)
Fixpoint le_uint (bs : list byte) : Z :=
  match bs with
  | [] => 0
  | b :: bs' => byte_val b + 256 * le_uint bs'
  end.

(** [struct.unpack('<I', bs)[0]] *)
Definition unpack_I (bs : list byte) : result Z :=
  if len bs =? 4 then Ok (le_uint bs) else Raise struct_error.

(** A float read with the format [<f], as its IEEE-754 binary32 pattern. *)
Record float32 : Type := F32 { f32_bits : Z }.

Definition vertex : Type := float32 * float32 * float32.

(** [struct.unpack('<fff', bs)] *)
Definition unpack_fff (bs : list byte) : result vertex :=
  if len bs =? 12
  then Ok (F32 (le_uint (slice bs 0 4)),
           F32 (le_uint (slice bs 4 8)),
           F32 (le_uint (slice bs 8 12)))
  else Raise struct_error.

(** ** The converter instance and the files *)

(** The tuple [(tag, idx, pos, raw_size, chunk_data)] stored in [self.chunks]. *)
Record chunk : Type := Chunk {
  chunk_tag : Z;
  chunk_idx : Z;
  chunk_pos : Z;
  chunk_size : Z;
  chunk_data : list byte
}.

Record converter : Type := Converter {
  chunks : list chunk;
  nr_version : Z
}.

(** [NR2ObjConverter.__init__] *)
Definition init : converter := {| chunks := []; nr_version := 0 |}.

Record world : Type := World {
  self : converter;
  files : gmap string (list byte)
}.

Inductive outcome (A : Type) : Type :=
  | Ret (a : A) (w : world)
  | Exc (e : exn) (w : world)
  | Spin.
Arguments Ret {A} a w.
Arguments Exc {A} e w.
Arguments Spin {A}.

Definition M (A : Type) : Type := world -> outcome A.

Definition ret {A} (a : A) : M A := fun w => Ret a w.

Definition raise {A} (e : exn) : M A := fun w => Exc e w.

Definition bind {A B} (m : M A) (k : A -> M B) : M B := fun w =>
  match m w with
  | Ret a w' => k a w'
  | Exc e w' => Exc e w'
  | Spin => Spin
  end.

Definition lift {A} (r : result A) : M A :=
  match r with
  | Ok a => ret a
  | Raise e => raise e
  end.

Declare Scope m_scope.
Delimit Scope m_scope with M.
Notation "x <- m ; k" := (bind m (fun x => k))
  (at level 100, m at next level, right associativity,
   format "'[v' x  <-  m ; '/' k ']'") : m_scope.
Notation "m ;; k" := (bind m (fun _ => k))
  (at level 100, k at level 200, right associativity,
   format "'[v' m ;; '/' k ']'") : m_scope.

(** [self.chunks = cs] *)
Definition set_chunks (cs : list chunk) : M unit := fun w =>
  Ret tt {| self := {| chunks := cs; nr_version := nr_version (self w) |};
            files := files w |}.

(** [self.chunks.append(c)] *)
Definition append_chunk (c : chunk) : M unit := fun w =>
  Ret tt {| self := {| chunks := chunks (self w) ++ [c];
                       nr_version := nr_version (self w) |};
            files := files w |}.

(** [self.nr_version = v] *)
Definition set_nr_version (v : Z) : M unit := fun w =>
  Ret tt {| self := {| chunks := chunks (self w); nr_version := v |};
            files := files w |}.

(** [with open(path, 'rb') as f: data = f.read()] *)
Definition read_bytes (path : string) : M (list byte) := fun w =>
  match files w !! path with
  | Some data => Ret data w
  | None => Exc FileNotFoundError w
  end.

(** ** [read_nr_file] *)

Definition NRIP : Z := 0x5049524E.

(** The [while pos < len(data)] loop, lines 31-47, for at most [fuel]
    executions of its body. *)
Fixpoint read_chunks (fuel : nat) (data : list byte) (pos : Z) : M unit :=
  if pos <? len data then
    if pos + 12 >? len data then ret tt
    else
      match fuel with
      | O => fun _ => Spin
      | S fuel' =>
          (raw_size <- lift (unpack_I (slice data pos (pos + 4)));
           tag <- lift (unpack_I (slice data (pos + 4) (pos + 8)));
           idx <- lift (unpack_I (slice data (pos + 8) (pos + 12)));
           let chunk_data :=
             if raw_size >? 12 then slice data (pos + 12) (pos + raw_size)
             else [] in
           append_chunk (Chunk tag idx pos raw_size chunk_data);;
           read_chunks fuel' data (pos + raw_size))%M
      end
  else ret tt.

Definition read_nr_file (fuel : nat) (file_path : string) : M unit :=
  (data <- read_bytes file_path;
   magic <- lift (unpack_I (slice data 0 4));
   if negb (magic =? NRIP)
   then raise (ValueError "Not a valid NinjaRipper 2 file (missing NRIP magic)")
   else
     version <- lift (unpack_I (slice data 4 8));
     set_nr_version version;;
     read_chunks fuel data 16)%M.

(** ** [find_chunks] *)

Definition find_chunks (tag : Z) : M (list chunk) := fun w =>
  Ret (filter (fun c => chunk_tag c = tag) (chunks (self w))) w.

(** ** [parse_vertex_data] *)

(** The [for i in range(vertex_count)] loop, lines 69-76; [n] iterations
    remain. *)
Fixpoint vertex_loop (n : nat) (vert_data : list byte) (vertex_size pos : Z)
    (vertices : list vertex) : result (list vertex) :=
  match n with
  | O => Ok vertices
  | S n' =>
      if pos + 12 >? len vert_data then Ok vertices
      else
        (v <- unpack_fff (slice vert_data pos (pos + 12));
         vertex_loop n' vert_data vertex_size (pos + vertex_size)
           (vertices ++ [v]))%res
  end.

Definition parse_vertex_data (vert_data : list byte) : result (list vertex) :=
  if len vert_data <? 8 then Ok []
  else
    (vertex_count <- unpack_I (slice vert_data 0 4);
     vertex_size <- unpack_I (slice vert_data 4 8);
     vertex_loop (Z.to_nat vertex_count) vert_data vertex_size 8 [])%res.

(** ** [parse_index_data] *)

(** The [for i in range(index_count)] loop, lines 91-98. *)
Fixpoint index_loop (n : nat) (indx_data : list byte) (pos : Z)
    (indices : list Z) : result (list Z) :=
  match n with
  | O => Ok indices
  | S n' =>
      if pos + 4 >? len indx_data then Ok indices
      else
        (index <- unpack_I (slice indx_data pos (pos + 4));
         index_loop n' indx_data (pos + 4) (indices ++ [index]))%res
  end.

Definition parse_index_data (indx_data : list byte) : result (list Z) :=
  if len indx_data <? 8 then Ok []
  else
    (index_count <- unpack_I (slice indx_data 0 4);
     index_loop (Z.to_nat index_count) indx_data 8 [])%res.

(** ** [convert_to_obj] *)

Definition VERT : Z := 0x54524556.
Definition INDX : Z := 0x58444E49.

(** Lines 125-126: the position of the vertex chunk to use, and the chunk. *)
Definition vert_chunk_idx (use_world_space : bool) (vert_chunks : list chunk)
    : Z :=
  if use_world_space && (len vert_chunks >? 1) then 1 else 0.

Definition select_vert_chunk (use_world_space : bool)
    (vert_chunks : list chunk) : result chunk :=
  index vert_chunks (vert_chunk_idx use_world_space vert_chunks).

(** [range(lo, hi, step)] for [0 < step] *)
Fixpoint range_from (n : nat) (lo step : Z) : list Z :=
  match n with
  | O => []
  | S n' => lo :: range_from n' (lo + step) step
  end.

Definition py_range (lo hi step : Z) : list Z :=
  range_from (Z.to_nat ((hi - lo + step - 1) / step)) lo step.

(** ** [tag_to_string] *)

(** [chr(n)] for [0 <= n < 256]: the character with that code. *)
Definition chr (n : Z) : Ascii.ascii := Ascii.ascii_of_N (Z.to_N n).

(** ["".join([chr((tag >> (8 * i)) & 0xFF) for i in range(4)])] *)
Definition tag_to_string (tag : Z) : string :=
  string_of_list_ascii
    (map (fun i => chr (Z.land (Z.shiftr tag (8 * i)) 0xFF)) (py_range 0 4 1)).

(** [for x in l: body(x)] *)
Fixpoint for_each {A} (l : list A) (body : A -> M unit) : M unit :=
  match l with
  | [] => ret tt
  | x :: l' => (body x;; for_each l' body)%M
  end.

(** [open(path, 'w')]: the file is created, or truncated. *)
Definition open_w (path : string) : M unit := fun w =>
  Ret tt {| self := self w; files := <[path := []]> (files w) |}.

(** The bytes of a text, one per character of the Rocq string. *)
Definition encode (s : string) : list byte := list_byte_of_string s.

(** [obj_file.write(s)] on the file opened at [path] *)
Definition write (path : string) (s : string) : M unit := fun w =>
  Ret tt {| self := self w;
            files := alter (fun bs => bs ++ encode s) path (files w) |}.

Definition nl : string := String (Ascii.ascii_of_nat 10) EmptyString.

Section Writer.

(** The two library functions of the writer that are outside the
    embedding: the float format [:.6f] and [os.path.basename]. *)
Variable format_6f : float32 -> string.
Variable basename : string -> string.

(** [f"v {v[0]:.6f} {v[1]:.6f} {v[2]:.6f}\n"] *)
Definition vertex_line (v : vertex) : string :=
  let '(x, y, z) := v in
  "v " +:+ format_6f x +:+ " " +:+ format_6f y +:+ " " +:+ format_6f z
    +:+ nl.

(** [f"f {a} {b} {c}\n"] *)
Definition face_line (a b c : Z) : string :=
  "f " +:+ pretty a +:+ " " +:+ pretty b +:+ " " +:+ pretty c +:+ nl.

(** Lines 147-150: the face loop. *)
Definition write_faces (path : string) (indices : list Z) : M unit :=
  for_each (py_range 0 (len indices) 3) (fun i =>
    if i + 2 <? len indices then
      (a <- lift (index indices i);
       b <- lift (index indices (i + 1));
       c <- lift (index indices (i + 2));
       write path (face_line (a + 1) (b + 1) (c + 1)))%M
    else ret tt).

(** Lines 136-150: the [with open(obj_file_path, 'w')] block. *)
Definition write_obj (nr_file_path obj_file_path : string)
    (use_world_space : bool) (vertices : list vertex) (indices : list Z)
    : M unit :=
  (open_w obj_file_path;;
   write obj_file_path ("# Converted from NinjaRipper 2 .nr file" +:+ nl);;
   write obj_file_path
     ("# Original file: " +:+ basename nr_file_path +:+ nl);;
   write obj_file_path
     ("# Vertex space: " +:+ (if use_world_space then "World" else "Local")
        +:+ nl +:+ nl);;
   for_each vertices (fun v => write obj_file_path (vertex_line v));;
   write obj_file_path nl;;
   write_faces obj_file_path indices)%M.

(** Lines 114-150: from the chunks in [self.chunks] to the [.obj] file. *)
Definition convert_chunks (nr_file_path obj_file_path : string)
    (use_world_space : bool) : M unit :=
  (vert_chunks <- find_chunks VERT;
   indx_chunks <- find_chunks INDX;
   if bool_decide (vert_chunks = []) || bool_decide (indx_chunks = [])
   then raise (ValueError "No vertex or index data found in file")
   else
     vert_chunk <- lift (select_vert_chunk use_world_space vert_chunks);
     indx_chunk <- lift (index indx_chunks 0);
     vertices <- lift (parse_vertex_data (chunk_data vert_chunk));
     indices <- lift (parse_index_data (chunk_data indx_chunk));
     write_obj nr_file_path obj_file_path use_world_space vertices indices)%M.

(** Lines 105-150: the body of the [try]. *)
Definition convert_body (fuel : nat) (nr_file_path obj_file_path : string)
    (use_world_space : bool) : M unit :=
  (set_chunks [];;
   read_nr_file fuel nr_file_path;;
   convert_chunks nr_file_path obj_file_path use_world_space)%M.

(** [try: ... except Exception: return False] and [return True] *)
Definition convert_to_obj (fuel : nat) (nr_file_path obj_file_path : string)
    (use_world_space : bool) : M bool := fun w =>
  match convert_body fuel nr_file_path obj_file_path use_world_space w with
  | Ret _ w' => Ret true w'
  | Exc _ w' => Ret false w'
  | Spin => Spin
  end.

End Writer.

(** ** [process_file] *)

Section Batch.

Variable format_6f : float32 -> string.
Variable basename : string -> string.

(** The operations of [pathlib] on the paths, outside the embedding:
    [Path(p).parent], [Path(p).stem] and [dir / name]. *)
Variable parent : string -> string.
Variable stem : string -> string.
Variable join : string -> string -> string.




End Batch.

(** ** Reference definitions

    The notions the properties below are stated with: reads at an absolute
    payload offset, the decoders as sequences cut at the first read that does
    not fit, the grouping of an index sequence into triples, and the files
    whose chunks tile the region after the header. *)

Definition byte_at (payload : list byte) (off : Z) : Z :=
  byte_val (nth (Z.to_nat off) payload x00).

(** The little-endian 32-bit unsigned integer at [off]. *)
Definition u32_at (payload : list byte) (off : Z) : Z :=
  byte_at payload off + 2 ^ 8 * byte_at payload (off + 1)
  + 2 ^ 16 * byte_at payload (off + 2) + 2 ^ 24 * byte_at payload (off + 3).

(** The three little-endian 32-bit floats at [off]. *)
Definition vertex_at (payload : list byte) (off : Z) : vertex :=
  (F32 (u32_at payload off), F32 (u32_at payload (off + 4)),
   F32 (u32_at payload (off + 8))).

Fixpoint take_while {A} (p : A -> bool) (l : list A) : list A :=
  match l with
  | [] => []
  | x :: l' => if p x then x :: take_while p l' else []
  end.

(** Vertex [i] for [i = 0, 1, ...] while [i < count] and
    [8 + i*stride + 12 <= payloadLength]. *)
Definition decodeVertices (payload : list byte) : list vertex :=
  if len payload <? 8 then []
  else
    let count := u32_at payload 0 in
    let stride := u32_at payload 4 in
    map (fun i => vertex_at payload (8 + i * stride))
      (take_while (fun i => 8 + i * stride + 12 <=? len payload)
         (range_from (Z.to_nat count) 0 1)).

(** The integers at offsets 8, 12, 16, ... while fewer than [count] have
    been read and the next 4-byte read fits. *)
Definition decodeIndices (payload : list byte) : list Z :=
  let count := u32_at payload 0 in
  map (fun i => u32_at payload (8 + 4 * i))
    (take_while (fun i => 8 + 4 * i + 4 <=? len payload)
       (range_from (Z.to_nat count) 0 1)).

(** Consecutive triples; a trailing group of fewer than three is dropped. *)
Fixpoint group3 {A} (l : list A) : list (A * A * A) :=
  match l with
  | a :: b :: c :: l' => (a, b, c) :: group3 l'
  | _ => []
  end.

(** The chunk headers from [pos] on tile the bytes up to the end of the
    buffer: each chunk has a full header and a positive size, stays inside
    the buffer, and the next one starts where it ends. *)
Fixpoint chunk_stream (fuel : nat) (data : list byte) (pos : Z) : bool :=
  if pos =? len data then true
  else
    match fuel with
    | O => false
    | S fuel' =>
        let size := u32_at data pos in
        (pos + 12 <=? len data) && (0 <? size) && (pos + size <=? len data)
        && chunk_stream fuel' data (pos + size)
    end.

Definition valid_file (data : list byte) : bool :=
  (16 <=? len data) && (u32_at data 0 =? NRIP)
  && chunk_stream (length data) data 16.

(** The sum of the [declaredSize] fields. *)
Definition total_size (cs : list chunk) : Z :=
  foldr (fun c acc => chunk_size c + acc) 0 cs.

(** Each chunk starts where the previous one ends, from [lo] up to [hi]. *)
Fixpoint tiles (lo : Z) (cs : list chunk) (hi : Z) : Prop :=
  match cs with
  | [] => lo = hi
  | c :: cs' => chunk_pos c = lo /\ tiles (lo + chunk_size c) cs' hi
  end.

(** The chunks the loop of [read_nr_file] appends when started at [pos]. *)
Fixpoint scan (fuel : nat) (data : list byte) (pos : Z) : option (list chunk) :=
  if pos <? len data then
    if pos + 12 >? len data then Some []
    else
      match fuel with
      | O => None
      | S fuel' =>
          let raw_size := u32_at data pos in
          let chunk_data :=
            if raw_size >? 12 then slice data (pos + 12) (pos + raw_size)
            else [] in
          cons (Chunk (u32_at data (pos + 4)) (u32_at data (pos + 8)) pos
                  raw_size chunk_data)
            <$> scan fuel' data (pos + raw_size)
      end
  else Some [].

(** The world after [cs] has been appended to [self.chunks]. *)
Definition with_chunks (cs : list chunk) (w : world) : world :=
  {| self := {| chunks := chunks (self w) ++ cs;
                nr_version := nr_version (self w) |};
     files := files w |}.

(** The world after [path] has been given the content [bs]. *)
Definition with_file (path : string) (bs : list byte) (w : world) : world :=
  {| self := self w; files := <[path := bs]> (files w) |}.

(** The world after [self.chunks = []]. *)
Definition reset (w : world) : world :=
  {| self := {| chunks := []; nr_version := nr_version (self w) |};
     files := files w |}.

(** What [read_nr_file] does with the content of the file, if there is one:
    the exception it raises, or the version it stores and the chunks it
    appends; [None] when the loop needs more iterations. *)
Definition read_outcome (fuel : nat) (input : option (list byte))
    : option (result (Z * list chunk)) :=
  match input with
  | None => Some (Raise FileNotFoundError)
  | Some data =>
      if len data <? 4 then Some (Raise struct_error)
      else if negb (u32_at data 0 =? NRIP) then
        Some (Raise
                (ValueError "Not a valid NinjaRipper 2 file (missing NRIP magic)"))
      else if len data <? 8 then Some (Raise struct_error)
      else (fun cs => Ok (u32_at data 4, cs)) <$> scan fuel data 16
  end.

(** What lines 115-133 compute from the chunk list: the vertices of the
    selected vertex chunk and the indices of the first index chunk. *)
Definition extract_geometry (use_world_space : bool) (cs : list chunk)
    : result (list vertex * list Z) :=
  let vert_chunks := filter (fun c => chunk_tag c = VERT) cs in
  let indx_chunks := filter (fun c => chunk_tag c = INDX) cs in
  if bool_decide (vert_chunks = []) || bool_decide (indx_chunks = [])
  then Raise (ValueError "No vertex or index data found in file")
  else
    (vert_chunk <- select_vert_chunk use_world_space vert_chunks;
     indx_chunk <- index indx_chunks 0;
     vertices <- parse_vertex_data (chunk_data vert_chunk);
     indices <- parse_index_data (chunk_data indx_chunk);
     Ok (vertices, indices))%res.

(** The face lines of an index sequence: one per triple, 1-based. *)
Definition faces_text (indices : list Z) : list byte :=
  concat (map (fun '(a, b, c) => encode (face_line (a + 1) (b + 1) (c + 1)))
            (group3 indices)).

(** The content of the [.obj] file. *)
Definition obj_text (format_6f : float32 -> string)
    (basename : string -> string) (nr_file_path : string)
    (use_world_space : bool) (vertices : list vertex) (indices : list Z)
    : list byte :=
  encode ("# Converted from NinjaRipper 2 .nr file" +:+ nl)
  ++ encode ("# Original file: " +:+ basename nr_file_path +:+ nl)
  ++ encode ("# Vertex space: "
              +:+ (if use_world_space then "World" else "Local")
              +:+ nl +:+ nl)
  ++ concat (map (fun v => encode (vertex_line format_6f v)) vertices)
  ++ encode nl
  ++ faces_text indices.

(** The world after [self.nr_version] has been set to [v]. *)
Definition with_version (v : Z) (w : world) : world :=
  {| self := {| chunks := chunks (self w); nr_version := v |};
     files := files w |}.

(** A world with a fresh converter and one file. *)
Definition one_file (path : string) (data : list byte) : world :=
  {| self := init; files := {[ path := data ]} |}.

(** ** Sample files *)

(** The 16-byte header: magic [NRIP], version 0, reserved bytes. *)
Definition header : list byte :=
  [x4e; x52; x49; x50; x00; x00; x00; x00;
   x00; x00; x00; x00; x00; x00; x00; x00].

(** A header followed by one chunk header whose [declaredSize] is 0. *)
Definition zero_size_file : list byte :=
  header ++ [x00; x00; x00; x00; x01; x00; x00; x00; x00; x00; x00; x00].

(** The magic and the version, and nothing else: 8 bytes. *)
Definition short_header_file : list byte :=
  [x4e; x52; x49; x50; x00; x00; x00; x00].

(** A header, a chunk of 12 bytes and a chunk of 16 bytes. *)
Definition two_chunk_file : list byte :=
  header
  ++ [x0c; x00; x00; x00; x01; x00; x00; x00; x00; x00; x00; x00]
  ++ [x10; x00; x00; x00; x02; x00; x00; x00; x00; x00; x00; x00;
      xaa; xbb; xcc; xdd].

(** A vertex payload: count 2, stride 20, two records of 20 bytes. *)
Definition strided_payload : list byte :=
  [x02; x00; x00; x00; x14; x00; x00; x00]
  ++ [x01; x00; x00; x00; x02; x00; x00; x00; x03; x00; x00; x00;
      xf0; xf1; xf2; xf3; xf4; xf5; xf6; xf7]
  ++ [x04; x00; x00; x00; x05; x00; x00; x00; x06; x00; x00; x00;
      xf8; xf9; xfa; xfb; xfc; xfd; xfe; xff].

(** The same payload cut after 30 bytes: the second record is incomplete. *)
Definition truncated_payload : list byte := take 30 strided_payload.

(** A vertex payload: count 3, stride 0, one record of 12 bytes. *)
Definition stride0_payload : list byte :=
  [x03; x00; x00; x00; x00; x00; x00; x00;
   x01; x00; x00; x00; x02; x00; x00; x00; x03; x00; x00; x00].

(** An index payload: count 3, topology 4, the indices 0, 1, 2. *)
Definition index_payload : list byte :=
  [x03; x00; x00; x00; x04; x00; x00; x00;
   x00; x00; x00; x00; x01; x00; x00; x00; x02; x00; x00; x00].

(** The same index payload with another topology field. *)
Definition index_payload' : list byte :=
  [x03; x00; x00; x00; x09; x08; x07; x06;
   x00; x00; x00; x00; x01; x00; x00; x00; x02; x00; x00; x00].

(** A mesh: a header, a vertex chunk with 3 vertices of stride 12 and an
    index chunk with the indices 0, 1, 2. *)
Definition triangle_file : list byte :=
  header
  ++ [x38; x00; x00; x00; x56; x45; x52; x54; x00; x00; x00; x00]
  ++ [x03; x00; x00; x00; x0c; x00; x00; x00]
  ++ [x00; x00; x00; x00; x00; x00; x00; x00; x00; x00; x00; x00;
      x00; x00; x80; x3f; x00; x00; x00; x00; x00; x00; x00; x00;
      x00; x00; x00; x00; x00; x00; x80; x3f; x00; x00; x00; x00]
  ++ [x20; x00; x00; x00; x49; x4e; x44; x58; x00; x00; x00; x00]
  ++ index_payload.

(** A converter that has read another file before, next to that file. *)
Definition used_world (path : string) (data : list byte) : world :=
  {| self := {| chunks := [Chunk VERT 0 16 12 []; Chunk 7 0 28 12 []];
                nr_version := 2 |};
     files := <[ "earlier.nr" := two_chunk_file ]> {[ path := data ]} |}.

(** A stand-in for the float format in the examples: the bit pattern of the
    float, in decimal. *)
Definition bits_format (x : float32) : string := pretty (f32_bits x).

(** What holds of every chunk the loop stores. *)
Definition stored_in (data : list byte) (lo : Z) (c : chunk) : Prop :=
  lo <= chunk_pos c /\ chunk_pos c + 12 <= len data
  /\ chunk_size c = u32_at data (chunk_pos c)
  /\ chunk_tag c = u32_at data (chunk_pos c + 4)
  /\ chunk_idx c = u32_at data (chunk_pos c + 8)
  /\ chunk_data c
     = slice data (chunk_pos c + 12) (chunk_pos c + chunk_size c).



(** * Properties *)

(** ** Bytes and slices *)

Lemma len_nonneg {A} (l : list A) : 0 <= len l.
Proof. unfold len. lia. Qed.

Lemma byte_val_range b : 0 <= byte_val b < 256.
Proof.
  unfold byte_val. pose proof (Byte.to_N_bounded b) as Hb. lia.
Qed.

(** The bytes of a slice that lies inside the buffer. *)
Lemma take_drop_nth (data : list byte) (n i : nat) :
  (i + n <= length data)%nat ->
  take n (drop i data) = map (fun k => nth (i + k) data x00) (seq 0 n).
Proof.
  revert i. induction n as [|n IH]; intros i Hi; [by rewrite take_0|].
  destruct (lookup_lt_is_Some_2 data i) as [x Hx]; [lia|].
  rewrite (drop_S _ x) by done. simpl. f_equal.
  - rewrite Nat.add_0_r, nth_lookup, Hx. done.
  - rewrite IH by lia. rewrite <- seq_shift, map_map.
    apply map_ext. intros k. f_equal. lia.
Qed.

Lemma slice_slice {A} (data : list A) (lo hi a b : Z) :
  0 <= lo -> 0 <= a -> b <= hi - lo ->
  slice (slice data lo hi) a b = slice data (lo + a) (lo + b).
Proof.
  intros Hlo Ha Hb. unfold slice.
  destruct (Z.le_gt_cases b a) as [Hba|Hab].
  - replace (Z.to_nat (b - a)) with 0%nat by lia.
    replace (Z.to_nat (lo + b - (lo + a))) with 0%nat by lia.
    by rewrite !take_0.
  - replace (Z.to_nat (hi - lo))
      with (Z.to_nat a + Z.to_nat (hi - lo - a))%nat by lia.
    rewrite <- take_drop_commute, take_take, drop_drop.
    f_equal; [lia | f_equal; lia].
Qed.

Lemma le_uint_at (data : list byte) (pos hi : Z) :
  0 <= pos -> hi = pos + 4 -> hi <= len data ->
  le_uint (slice data pos hi) = u32_at data pos.
Proof.
  intros Hpos -> Hfit. unfold len in Hfit. unfold slice.
  replace (Z.to_nat (pos + 4 - pos)) with 4%nat by lia.
  rewrite take_drop_nth by lia. unfold u32_at, byte_at. simpl.
  replace (Z.to_nat (pos + 1)) with (Z.to_nat pos + 1)%nat by lia.
  replace (Z.to_nat (pos + 2)) with (Z.to_nat pos + 2)%nat by lia.
  replace (Z.to_nat (pos + 3)) with (Z.to_nat pos + 3)%nat by lia.
  rewrite Nat.add_0_r. lia.
Qed.

Lemma len_slice {A} (data : list A) (lo hi : Z) :
  0 <= lo -> lo <= hi -> hi <= len data -> len (slice data lo hi) = hi - lo.
Proof.
  intros Hlo Hhi Hfit. unfold len, slice in *.
  rewrite length_take, length_drop. lia.
Qed.

Lemma unpack_I_at (data : list byte) (pos hi : Z) :
  0 <= pos -> hi = pos + 4 -> hi <= len data ->
  unpack_I (slice data pos hi) = Ok (u32_at data pos).
Proof.
  intros Hpos -> Hfit. unfold unpack_I.
  rewrite len_slice, le_uint_at by lia.
  replace (pos + 4 - pos) with 4 by lia. reflexivity.
Qed.

Lemma unpack_fff_at (data : list byte) (pos hi : Z) :
  0 <= pos -> hi = pos + 12 -> hi <= len data ->
  unpack_fff (slice data pos hi) = Ok (vertex_at data pos).
Proof.
  intros Hpos -> Hfit. unfold unpack_fff, vertex_at.
  rewrite len_slice by lia.
  replace (pos + 12 - pos) with 12 by lia. simpl.
  rewrite !slice_slice by lia.
  rewrite (le_uint_at data (pos + 0)), (le_uint_at data (pos + 4)),
    (le_uint_at data (pos + 8)) by lia.
  by rewrite Z.add_0_r.
Qed.

Lemma unpack_I_short (data : list byte) (lo hi : Z) :
  0 <= lo -> hi = lo + 4 -> len data < hi ->
  unpack_I (slice data lo hi) = Raise struct_error.
Proof.
  intros Hlo -> Hshort. unfold unpack_I, slice, len in *.
  rewrite length_take, length_drop.
  destruct (Z.eqb_spec (Z.of_nat (Z.to_nat (lo + 4 - lo)
                                  `min` (length data - Z.to_nat lo))) 4)
    as [Heq|Hne]; [lia | reflexivity].
Qed.

Lemma byte_at_nonneg payload off : 0 <= byte_at payload off.
Proof. unfold byte_at. apply byte_val_range. Qed.

Lemma u32_at_nonneg payload off : 0 <= u32_at payload off.
Proof.
  unfold u32_at.
  pose proof (byte_at_nonneg payload off).
  pose proof (byte_at_nonneg payload (off + 1)).
  pose proof (byte_at_nonneg payload (off + 2)).
  pose proof (byte_at_nonneg payload (off + 3)).
  lia.
Qed.

(** ** The chunk loop *)

Lemma with_chunks_nil w : with_chunks [] w = w.
Proof.
  destruct w as [[cs v] fs]. unfold with_chunks. simpl.
  by rewrite app_nil_r.
Qed.

Lemma with_chunks_cons c cs w :
  with_chunks cs (with_chunks [c] w) = with_chunks (c :: cs) w.
Proof.
  unfold with_chunks. simpl. by rewrite <- app_assoc.
Qed.

(** The loop appends exactly the chunks [scan] lists, and needs more
    iterations exactly when [scan] does. *)
Lemma read_chunks_scan fuel data pos w :
  0 <= pos ->
  read_chunks fuel data pos w
  = match scan fuel data pos with
    | Some cs => Ret tt (with_chunks cs w)
    | None => Spin
    end.
Proof.
  revert pos w. induction fuel as [|fuel IH]; intros pos w Hpos; simpl.
  - destruct (pos <? len data); [destruct (pos + 12 >? len data)|];
      simpl; unfold ret; by rewrite ?with_chunks_nil.
  - destruct (pos <? len data); [|unfold ret; by rewrite with_chunks_nil].
    destruct (Z.gtb_spec (pos + 12) (len data)) as [Hgt|Hle];
      [unfold ret; by rewrite with_chunks_nil|].
    rewrite (unpack_I_at data pos (pos + 4)) by lia.
    rewrite (unpack_I_at data (pos + 4) (pos + 8)) by lia.
    rewrite (unpack_I_at data (pos + 8) (pos + 12)) by lia.
    unfold bind at 1 2 3. simpl. unfold bind, append_chunk.
    pose proof (u32_at_nonneg data pos) as Hsz.
    rewrite IH by lia.
    destruct (scan fuel data (pos + u32_at data pos)) as [cs|]; simpl;
      [|reflexivity].
    f_equal. apply (with_chunks_cons _ cs w).
Qed.

(** More fuel does not change a finished scan. *)
Lemma scan_mono fuel fuel' data pos cs :
  (fuel <= fuel')%nat -> scan fuel data pos = Some cs ->
  scan fuel' data pos = Some cs.
Proof.
  revert fuel' pos cs. induction fuel as [|fuel IH]; intros fuel' pos cs Hle.
  - destruct fuel' as [|fuel']; simpl; [done|].
    destruct (pos <? len data); [|done].
    destruct (pos + 12 >? len data); done.
  - destruct fuel' as [|fuel']; [lia|]. simpl.
    destruct (pos <? len data); [|done].
    destruct (pos + 12 >? len data); [done|].
    destruct (scan fuel data (pos + u32_at data pos)) as [cs'|] eqn:Hs;
      simpl; [|done].
    intros Hcs. rewrite (IH fuel' _ cs') by (done || lia). done.
Qed.

(** A header with [declaredSize = 0] is read again and again. *)
Lemma scan_zero_size data pos :
  pos + 12 <= len data -> u32_at data pos = 0 ->
  forall fuel, scan fuel data pos = None.
Proof.
  intros Hfit Hzero fuel. induction fuel as [|fuel IH]; simpl.
  - destruct (Z.ltb_spec pos (len data)); [|lia].
    destruct (Z.gtb_spec (pos + 12) (len data)); [lia|done].
  - destruct (Z.ltb_spec pos (len data)); [|lia].
    destruct (Z.gtb_spec (pos + 12) (len data)); [lia|].
    rewrite Hzero, Z.add_0_r, IH. done.
Qed.

(** Headers with a positive [declaredSize] are the only ones met by a loop
    that ends: then [len(data)] iterations are enough. *)
Lemma scan_positive_sizes data :
  (forall pos, 0 <= pos -> pos + 12 <= len data -> 0 < u32_at data pos) ->
  forall fuel pos,
    0 <= pos -> len data - pos <= Z.of_nat fuel ->
    is_Some (scan fuel data pos).
Proof.
  intros Hpos_size fuel. induction fuel as [|fuel IH]; intros pos Hpos Hfuel;
    simpl.
  - destruct (Z.ltb_spec pos (len data)); [lia|done].
  - destruct (Z.ltb_spec pos (len data)); [|done].
    destruct (Z.gtb_spec (pos + 12) (len data)); [done|].
    specialize (Hpos_size pos Hpos ltac:(lia)).
    destruct (IH (pos + u32_at data pos)) as [cs Hcs]; [lia|lia|].
    rewrite Hcs. done.
Qed.

(** ** [read_nr_file] *)

Lemma read_nr_file_missing fuel path w :
  files w !! path = None ->
  read_nr_file fuel path w = Exc FileNotFoundError w.
Proof.
  intros Hnone. unfold read_nr_file, bind, read_bytes. by rewrite Hnone.
Qed.

(** A file with a readable magic and version: the loop starts at 16. *)
Lemma read_nr_file_scan fuel path w data :
  files w !! path = Some data ->
  8 <= len data -> u32_at data 0 = NRIP ->
  read_nr_file fuel path w
  = match scan fuel data 16 with
    | Some cs => Ret tt (with_chunks cs (with_version (u32_at data 4) w))
    | None => Spin
    end.
Proof.
  intros Hfile Hlen Hmagic. unfold read_nr_file, bind at 1, read_bytes.
  rewrite Hfile. unfold bind at 1.
  rewrite (unpack_I_at data 0 4) by lia. simpl. rewrite Hmagic. simpl.
  unfold bind at 1.
  rewrite (unpack_I_at data 4 8) by lia. simpl.
  unfold bind, set_nr_version. by rewrite read_chunks_scan.
Qed.

(** [read_nr_file] as a function of the content of the file. *)
Lemma read_nr_file_outcome fuel path w :
  read_nr_file fuel path w
  = match read_outcome fuel (files w !! path) with
    | Some (Ok (v, cs)) => Ret tt (with_chunks cs (with_version v w))
    | Some (Raise e) => Exc e w
    | None => Spin
    end.
Proof.
  destruct (files w !! path) as [data|] eqn:Hfile;
    [|by apply read_nr_file_missing].
  unfold read_outcome.
  destruct (Z.ltb_spec (len data) 4) as [Hcut|Hmagic_read].
  { unfold read_nr_file, bind at 1, read_bytes. rewrite Hfile.
    unfold bind. by rewrite (unpack_I_short data 0 4) by lia. }
  destruct (Z.eqb_spec (u32_at data 0) NRIP) as [Hmagic|Hmagic]; cbn [negb].
  2:{ unfold read_nr_file, bind at 1, read_bytes. rewrite Hfile.
      unfold bind. rewrite (unpack_I_at data 0 4) by lia. simpl.
      destruct (Z.eqb_spec (u32_at data 0) NRIP); [contradiction|done]. }
  destruct (Z.ltb_spec (len data) 8) as [Hcut|Hversion_read].
  { unfold read_nr_file, bind at 1, read_bytes. rewrite Hfile.
    unfold bind at 1. rewrite (unpack_I_at data 0 4) by lia. simpl.
    rewrite Hmagic. simpl.
    unfold bind. by rewrite (unpack_I_short data 4 8) by lia. }
  rewrite (read_nr_file_scan fuel path w data) by done.
  by destruct (scan fuel data 16).
Qed.

(** [read_nr_file] does not touch the files. *)
Lemma read_nr_file_files fuel path w a w' :
  read_nr_file fuel path w = Ret a w' -> files w' = files w.
Proof.
  rewrite read_nr_file_outcome.
  destruct (read_outcome fuel (files w !! path)) as [[[v cs]|e]|]; [|done|done].
  by intros [= _ <-].
Qed.

(** C1 (the code does not do what the claim says): on a file whose first
    chunk header has [declaredSize = 0] the loop of [read_nr_file] appends
    the same chunk and stays at the same position; no number of iterations
    ends it, and no error is raised. *)
Theorem read_nr_file_zero_size_spins :
  forall fuel, read_nr_file fuel "zero.nr" (one_file "zero.nr" zero_size_file) = Spin.
Proof.
  intros fuel.
  rewrite (read_nr_file_scan fuel "zero.nr" _ zero_size_file);
    [| apply lookup_singleton_eq | by vm_compute | by vm_compute].
  rewrite (scan_zero_size zero_size_file 16); [done | by vm_compute | by vm_compute].
Qed.

(** C2 (counterexample): a buffer of 8 bytes, fewer than 16, with the magic
    and a version is not rejected: [read_nr_file] returns normally and leaves
    the chunk list empty. *)
Lemma read_nr_file_short_header_accepted :
  len short_header_file < 16
  /\ read_nr_file 0 "short.nr" (one_file "short.nr" short_header_file)
     = Ret tt (one_file "short.nr" short_header_file).
Proof.
  split; [by vm_compute|].
  rewrite (read_nr_file_scan 0 "short.nr" _ short_header_file);
    [| apply lookup_singleton_eq | by vm_compute | by vm_compute].
  reflexivity.
Qed.

(** C2 (amended): [read_nr_file] raises, with the world unchanged and so
    before any chunk is appended, for every buffer of fewer than 8 bytes and
    for every buffer whose first 4 bytes are not the magic: [struct.error]
    when the magic or the version field is cut short, [ValueError] for a
    wrong magic. A buffer of 8 to 15 bytes with the magic is accepted: the
    version is stored and no chunk is appended. *)
Theorem read_nr_file_header_checks fuel path w data :
  files w !! path = Some data ->
  (len data < 4 -> read_nr_file fuel path w = Exc struct_error w)
  /\ (4 <= len data -> u32_at data 0 <> NRIP ->
      read_nr_file fuel path w
      = Exc (ValueError "Not a valid NinjaRipper 2 file (missing NRIP magic)") w)
  /\ (4 <= len data < 8 -> u32_at data 0 = NRIP ->
      read_nr_file fuel path w = Exc struct_error w)
  /\ (8 <= len data < 16 -> u32_at data 0 = NRIP ->
      read_nr_file fuel path w = Ret tt (with_version (u32_at data 4) w)).
Proof.
  intros Hfile. rewrite read_nr_file_outcome, Hfile. unfold read_outcome.
  split; [|split; [|split]].
  - intros Hlen. by destruct (Z.ltb_spec (len data) 4); [|lia].
  - intros Hlen Hmagic. destruct (Z.ltb_spec (len data) 4); [lia|].
    by destruct (Z.eqb_spec (u32_at data 0) NRIP).
  - intros Hlen Hmagic. destruct (Z.ltb_spec (len data) 4); [lia|].
    destruct (Z.eqb_spec (u32_at data 0) NRIP); [|done]. cbn [negb].
    by destruct (Z.ltb_spec (len data) 8); [|lia].
  - intros Hlen Hmagic. destruct (Z.ltb_spec (len data) 4); [lia|].
    destruct (Z.eqb_spec (u32_at data 0) NRIP); [|done]. cbn [negb].
    destruct (Z.ltb_spec (len data) 8); [lia|].
    assert (scan fuel data 16 = Some []) as ->.
    { destruct fuel; simpl; by destruct (Z.ltb_spec 16 (len data)); [lia|]. }
    simpl. by rewrite with_chunks_nil.
Qed.

(** The amended statement at the four kinds of buffer. *)
Lemma read_nr_file_header_checks_witness :
  read_nr_file 0 "a.nr" (one_file "a.nr" [x4e; x52]) 
  = Exc struct_error (one_file "a.nr" [x4e; x52])
  /\ read_nr_file 0 "a.nr" (one_file "a.nr" [x4f; x42; x4a; x00])
     = Exc (ValueError "Not a valid NinjaRipper 2 file (missing NRIP magic)")
         (one_file "a.nr" [x4f; x42; x4a; x00])
  /\ read_nr_file 0 "a.nr" (one_file "a.nr" [x4e; x52; x49; x50; x01])
     = Exc struct_error (one_file "a.nr" [x4e; x52; x49; x50; x01])
  /\ read_nr_file 0 "a.nr" (one_file "a.nr" short_header_file)
     = Ret tt (with_version 0 (one_file "a.nr" short_header_file)).
Proof.
  split; [|split; [|split]].
  - destruct (read_nr_file_header_checks 0 "a.nr"
                (one_file "a.nr" [x4e; x52]) [x4e; x52])
      as (Hcut & _); [apply lookup_singleton_eq|].
    apply Hcut. by vm_compute.
  - destruct (read_nr_file_header_checks 0 "a.nr"
                (one_file "a.nr" [x4f; x42; x4a; x00]) [x4f; x42; x4a; x00])
      as (_ & Hmagic & _); [apply lookup_singleton_eq|].
    apply Hmagic; by vm_compute.
  - destruct (read_nr_file_header_checks 0 "a.nr"
                (one_file "a.nr" [x4e; x52; x49; x50; x01])
                [x4e; x52; x49; x50; x01])
      as (_ & _ & Hversion & _); [apply lookup_singleton_eq|].
    apply Hversion; by vm_compute.
  - destruct (read_nr_file_header_checks 0 "a.nr"
                (one_file "a.nr" short_header_file) short_header_file)
      as (_ & _ & _ & Hshort); [apply lookup_singleton_eq|].
    apply Hshort; by vm_compute.
Defined.

(** ** Valid files *)

(** On a tiled region the loop ends, and the chunks it appends tile it. *)
Lemma chunk_stream_scan fuel data :
  forall fuel' pos,
    0 <= pos -> (fuel <= fuel')%nat -> chunk_stream fuel data pos = true ->
    exists cs, scan fuel' data pos = Some cs
               /\ total_size cs = len data - pos
               /\ tiles pos cs (len data).
Proof.
  induction fuel as [|fuel IH]; intros fuel' pos Hpos Hfuel; simpl.
  - destruct (Z.eqb_spec pos (len data)) as [->|Hne]; [intros _|done].
    exists []. destruct fuel'; simpl; rewrite Z.ltb_irrefl; simpl;
      (split; [done|split; [lia|done]]).
  - destruct (Z.eqb_spec pos (len data)) as [->|Hne].
    + intros _. exists [].
      destruct fuel'; simpl; rewrite Z.ltb_irrefl; simpl;
        (split; [done|split; [lia|done]]).
    + intros Hstream. apply andb_prop in Hstream as [Hstream Hrest].
      apply andb_prop in Hstream as [Hstream Hinside].
      apply andb_prop in Hstream as [Hheader Hsize].
      apply Z.leb_le in Hheader, Hinside. apply Z.ltb_lt in Hsize.
      destruct fuel' as [|fuel']; [lia|].
      destruct (IH fuel' (pos + u32_at data pos)) as (cs & Hcs & Hsum & Htiles);
        [lia | lia | done |].
      eexists. simpl.
      destruct (Z.ltb_spec pos (len data)); [|lia].
      destruct (Z.gtb_spec (pos + 12) (len data)); [lia|].
      rewrite Hcs. simpl. split; [reflexivity|]. simpl.
      split; [lia|]. split; [reflexivity|done].
Qed.

(** C4: for a valid file - a full header with the magic, followed by chunks
    that tile the bytes from offset 16 to the end - [read_nr_file] returns,
    and the [declaredSize] fields of the chunks it appended sum up to
    [fileLength - 16]; these chunks start at 16, each one where the previous
    one ends, and the last one ends with the file. *)
Theorem read_nr_file_total_size fuel path w data :
  files w !! path = Some data ->
  valid_file data = true ->
  (length data <= fuel)%nat ->
  exists cs,
    read_nr_file fuel path w
    = Ret tt (with_chunks cs (with_version (u32_at data 4) w))
    /\ total_size cs = len data - 16
    /\ tiles 16 cs (len data).
Proof.
  intros Hfile Hvalid Hfuel. unfold valid_file in Hvalid.
  apply andb_prop in Hvalid as [Hvalid Hstream].
  apply andb_prop in Hvalid as [Hlen Hmagic].
  apply Z.leb_le in Hlen. apply Z.eqb_eq in Hmagic.
  destruct (chunk_stream_scan (length data) data fuel 16)
    as (cs & Hcs & Hsum & Htiles); [lia | done | done |].
  exists cs. rewrite (read_nr_file_scan fuel path w data) by (done || lia).
  by rewrite Hcs.
Qed.

(** C4 at a file with a chunk of 12 and a chunk of 16 bytes. *)
Lemma read_nr_file_total_size_witness :
  valid_file two_chunk_file = true
  /\ exists cs,
       read_nr_file 44 "two.nr" (one_file "two.nr" two_chunk_file)
       = Ret tt (with_chunks cs
                   (with_version (u32_at two_chunk_file 4)
                      (one_file "two.nr" two_chunk_file)))
       /\ total_size cs = len two_chunk_file - 16
       /\ tiles 16 cs (len two_chunk_file).
Proof.
  split; [by vm_compute|].
  apply (read_nr_file_total_size 44 "two.nr" _ two_chunk_file);
    [apply lookup_singleton_eq | by vm_compute | by vm_compute].
Defined.

(** ** [parse_vertex_data] *)

(** From record [k] on, the loop appends the vertices of the records that
    fit, up to the first one that does not. *)
Lemma vertex_loop_from data stride n : forall k acc,
  0 <= stride -> 0 <= k ->
  vertex_loop n data stride (8 + k * stride) acc
  = Ok (acc ++ map (fun i => vertex_at data (8 + i * stride))
                 (take_while (fun i => 8 + i * stride + 12 <=? len data)
                    (range_from n k 1))).
Proof.
  induction n as [|n IH]; intros k acc Hstride Hk;
    cbn [vertex_loop range_from take_while].
  - by rewrite app_nil_r.
  - destruct (Z.gtb_spec (8 + k * stride + 12) (len data)) as [Hgt|Hle];
      destruct (Z.leb_spec (8 + k * stride + 12) (len data)) as [Hle'|Hgt'];
      try lia.
    + by rewrite app_nil_r.
    + rewrite (unpack_fff_at data (8 + k * stride)) by nia. cbn [rbind].
      replace (8 + k * stride + stride) with (8 + (k + 1) * stride) by lia.
      rewrite IH by lia. cbn [map]. by rewrite <- app_assoc.
Qed.

(** The elements kept from a range are its first ones. *)
Lemma take_while_range_lookup (p : Z -> bool) n : forall k (i : nat) x,
  take_while p (range_from n k 1) !! i = Some x -> x = k + Z.of_nat i.
Proof.
  induction n as [|n IH]; intros k i x; simpl; [done|].
  destruct (p k); [|done].
  destruct i as [|i]; simpl.
  - intros [= <-]. lia.
  - intros Hx. apply IH in Hx. lia.
Qed.

Lemma take_while_length {A} (p : A -> bool) (l : list A) :
  (length (take_while p l) <= length l)%nat.
Proof.
  induction l as [|x l IH]; simpl; [lia|].
  destruct (p x); simpl; lia.
Qed.

Lemma range_from_length n k step : length (range_from n k step) = n.
Proof.
  revert k. induction n as [|n IH]; intros k; simpl; [done|by rewrite IH].
Qed.

Lemma parse_vertex_data_ref payload :
  parse_vertex_data payload = Ok (decodeVertices payload).
Proof.
  unfold parse_vertex_data, decodeVertices.
  destruct (Z.ltb_spec (len payload) 8) as [Hshort|Hlen]; [done|].
  rewrite (unpack_I_at payload 0 4), (unpack_I_at payload 4 8) by lia.
  simpl.
  apply (vertex_loop_from payload (u32_at payload 4)
           (Z.to_nat (u32_at payload 0)) 0 []); [apply u32_at_nonneg | lia].
Qed.

(** With stride 0 every iteration reads the same 12 bytes. *)
Lemma vertex_loop_stride0 data n : forall acc,
  20 <= len data ->
  vertex_loop n data 0 8 acc = Ok (acc ++ replicate n (vertex_at data 8)).
Proof.
  induction n as [|n IH]; intros acc Hlen; cbn [vertex_loop replicate].
  - by rewrite app_nil_r.
  - destruct (Z.gtb_spec (8 + 12) (len data)); [lia|].
    rewrite (unpack_fff_at data 8 (8 + 12)) by lia. cbn [rbind].
    rewrite Z.add_0_r, IH by done. by rewrite <- app_assoc.
Qed.

(** C3: [parse_vertex_data] is the reference decoder [decodeVertices]: the
    empty sequence for a payload shorter than 8 bytes, and otherwise the
    vertices at the offsets [8 + i*stride] for [i = 0, 1, ...] while
    [i < count] and the 12 bytes of vertex [i] fit. It never raises. With
    count 2 and stride 20 the second vertex is the one at offset 28 when the
    payload has the 40 bytes for it, and a payload cut before offset 40
    (but with the first record) gives the first vertex alone. *)
Theorem parse_vertex_data_decodeVertices payload :
  parse_vertex_data payload = Ok (decodeVertices payload)
  /\ (u32_at payload 0 = 2 -> u32_at payload 4 = 20 ->
      (40 <= len payload ->
       parse_vertex_data payload
       = Ok [vertex_at payload 8; vertex_at payload 28])
      /\ (20 <= len payload < 40 ->
          parse_vertex_data payload = Ok [vertex_at payload 8])).
Proof.
  split; [apply parse_vertex_data_ref|].
  intros Hcount Hstride. rewrite parse_vertex_data_ref.
  unfold decodeVertices. rewrite Hcount, Hstride.
  split; intros Hlen.
  - destruct (Z.ltb_spec (len payload) 8); [lia|]. simpl.
    rewrite !(proj2 (Z.leb_le _ _)) by lia. done.
  - destruct (Z.ltb_spec (len payload) 8); [lia|]. simpl.
    rewrite (proj2 (Z.leb_le (8 + 0 * 20 + 12) _)) by lia.
    rewrite (proj2 (Z.leb_gt _ _)) by lia. done.
Qed.

(** C3 at a payload of two 20-byte records, whole and cut after 30 bytes. *)
Lemma parse_vertex_data_decodeVertices_witness :
  parse_vertex_data strided_payload
  = Ok [vertex_at strided_payload 8; vertex_at strided_payload 28]
  /\ vertex_at strided_payload 28 <> vertex_at strided_payload 20
  /\ parse_vertex_data truncated_payload = Ok [vertex_at truncated_payload 8].
Proof.
  split; [|split].
  - destruct (parse_vertex_data_decodeVertices strided_payload)
      as (_ & Hstrided).
    destruct Hstrided as (Hwhole & _); [by vm_compute | by vm_compute|].
    apply Hwhole. by vm_compute.
  - intros Hsame. vm_compute in Hsame. discriminate Hsame.
  - destruct (parse_vertex_data_decodeVertices truncated_payload)
      as (_ & Hstrided).
    destruct Hstrided as (_ & Hcut); [by vm_compute | by vm_compute|].
    apply Hcut. by vm_compute.
Defined.

(** C10: whatever the stride, also below 12 and 0, [parse_vertex_data]
    returns: its loop runs at most [count] times. For a stride below 12 it
    returns at most [count] vertices, vertex [i] being the one read at offset
    [8 + i*stride], so that consecutive reads overlap; for stride 0, a count
    of at least 1 and a payload of at least 20 bytes it returns exactly
    [count] copies of the vertex at bytes 8..20. *)
Theorem parse_vertex_data_small_stride payload :
  8 <= len payload ->
  u32_at payload 4 < 12 ->
  (exists vs,
     parse_vertex_data payload = Ok vs
     /\ len vs <= u32_at payload 0
     /\ forall i : nat,
          (i < length vs)%nat ->
          vs !! i
          = Some (vertex_at payload (8 + Z.of_nat i * u32_at payload 4)))
  /\ (u32_at payload 4 = 0 -> 1 <= u32_at payload 0 -> 20 <= len payload ->
      parse_vertex_data payload
      = Ok (replicate (Z.to_nat (u32_at payload 0)) (vertex_at payload 8))).
Proof.
  intros Hlen Hstride. split.
  - exists (decodeVertices payload). split; [apply parse_vertex_data_ref|].
    unfold decodeVertices. destruct (Z.ltb_spec (len payload) 8); [lia|].
    split.
    + unfold len at 1. rewrite length_map.
      eapply Z.le_trans; [apply Nat2Z.inj_le, take_while_length|].
      rewrite range_from_length.
      pose proof (u32_at_nonneg payload 0). lia.
    + intros i Hi. rewrite length_map in Hi.
      destruct (lookup_lt_is_Some_2 _ _ Hi) as [x Hx].
      rewrite list_lookup_fmap, Hx. simpl.
      apply take_while_range_lookup in Hx. subst x. do 3 f_equal.
  - intros Hzero Hcount Hlen20. unfold parse_vertex_data.
    destruct (Z.ltb_spec (len payload) 8); [lia|].
    rewrite (unpack_I_at payload 0 4), (unpack_I_at payload 4 8) by lia.
    cbn [rbind]. rewrite Hzero.
    apply (vertex_loop_stride0 payload _ []). done.
Qed.

(** C10 at a payload with count 3, stride 0 and one 12-byte record. *)
Lemma parse_vertex_data_small_stride_witness :
  parse_vertex_data stride0_payload
  = Ok (replicate 3 (vertex_at stride0_payload 8)).
Proof.
  destruct (parse_vertex_data_small_stride stride0_payload)
    as (_ & Hcopies); [by vm_compute | by vm_compute|].
  apply Hcopies; by vm_compute.
Defined.

(** ** [parse_index_data] *)

Lemma index_loop_from data n : forall k acc,
  0 <= k ->
  index_loop n data (8 + 4 * k) acc
  = Ok (acc ++ map (fun i => u32_at data (8 + 4 * i))
                 (take_while (fun i => 8 + 4 * i + 4 <=? len data)
                    (range_from n k 1))).
Proof.
  induction n as [|n IH]; intros k acc Hk; cbn [index_loop range_from take_while].
  - by rewrite app_nil_r.
  - destruct (Z.gtb_spec (8 + 4 * k + 4) (len data)) as [Hgt|Hle];
      destruct (Z.leb_spec (8 + 4 * k + 4) (len data)) as [Hle'|Hgt'];
      try lia.
    + by rewrite app_nil_r.
    + rewrite (unpack_I_at data (8 + 4 * k)) by lia. cbn [rbind].
      replace (8 + 4 * k + 4) with (8 + 4 * (k + 1)) by lia.
      rewrite IH by lia. cbn [map]. by rewrite <- app_assoc.
Qed.

Lemma parse_index_data_ref payload :
  parse_index_data payload = Ok (decodeIndices payload).
Proof.
  unfold parse_index_data, decodeIndices.
  destruct (Z.ltb_spec (len payload) 8) as [Hshort|Hlen].
  - destruct (Z.to_nat (u32_at payload 0)) as [|n]; [done|].
    cbn [range_from take_while].
    by destruct (Z.leb_spec (8 + 4 * 0 + 4) (len payload)); [lia|].
  - rewrite (unpack_I_at payload 0 4) by lia. cbn [rbind].
    apply (index_loop_from payload (Z.to_nat (u32_at payload 0)) 0 []).
    lia.
Qed.

(** The reference decoder reads the count and the bytes from offset 8 on. *)
Lemma decode_from_ext (p p' : list byte) (hi : Z) n : forall k,
  0 <= k ->
  (forall off, 8 <= off -> byte_at p' off = byte_at p off) ->
  map (fun i => u32_at p' (8 + 4 * i))
    (take_while (fun i => 8 + 4 * i + 4 <=? hi) (range_from n k 1))
  = map (fun i => u32_at p (8 + 4 * i))
      (take_while (fun i => 8 + 4 * i + 4 <=? hi) (range_from n k 1)).
Proof.
  induction n as [|n IH]; intros k Hk Hbytes;
    cbn [range_from take_while]; [done|].
  destruct (8 + 4 * k + 4 <=? hi); [|done].
  cbn [map]. f_equal.
  - unfold u32_at. rewrite !Hbytes by lia. done.
  - apply IH; (done || lia).
Qed.

(** C8: [parse_index_data] is the reference decoder [decodeIndices]: with
    [count] the integer at offset 0, the integers at offsets 8, 12, 16, ...
    while fewer than [count] have been read and the next 4 bytes fit. It never
    raises, and its result is the same for every value of the topology field,
    the bytes 4..8. *)
Theorem parse_index_data_decodeIndices payload :
  parse_index_data payload = Ok (decodeIndices payload)
  /\ forall payload',
       len payload' = len payload ->
       (forall off, 0 <= off -> off < 4 \/ 8 <= off ->
                    byte_at payload' off = byte_at payload off) ->
       parse_index_data payload' = parse_index_data payload.
Proof.
  split; [apply parse_index_data_ref|].
  intros payload' Hlen Hbytes. rewrite !parse_index_data_ref. f_equal.
  unfold decodeIndices.
  assert (u32_at payload' 0 = u32_at payload 0) as ->.
  { unfold u32_at. rewrite !Hbytes by lia. done. }
  rewrite Hlen. apply decode_from_ext; [lia|].
  intros off Hoff. apply Hbytes; lia.
Qed.

(** C8 at two payloads that differ in the topology field only. *)
Lemma parse_index_data_decodeIndices_witness :
  parse_index_data index_payload' = parse_index_data index_payload.
Proof.
  destruct (parse_index_data_decodeIndices index_payload) as (_ & Htopology).
  apply Htopology; [by vm_compute|].
  intros off Hoff Hout. unfold byte_at.
  destruct (Z.to_nat off) as [|[|[|[|[|[|[|[|n]]]]]]]] eqn:Hn;
    try reflexivity; lia.
Defined.

(** ** Writing the [.obj] file *)

Lemma with_file_same path bs w :
  files w !! path = Some bs -> with_file path bs w = w.
Proof.
  intros Hfile. destruct w as [s fs]. unfold with_file. simpl in *.
  by rewrite insert_id.
Qed.

Lemma with_file_twice path bs bs' w :
  with_file path bs' (with_file path bs w) = with_file path bs' w.
Proof. unfold with_file. simpl. by rewrite insert_insert_eq. Qed.

Lemma with_file_lookup path bs w : files (with_file path bs w) !! path = Some bs.
Proof. apply lookup_insert_eq. Qed.

Lemma write_existing path s w old :
  files w !! path = Some old ->
  write path s w = Ret tt (with_file path (old ++ encode s) w).
Proof.
  intros Hfile. unfold write, with_file.
  rewrite <- (insert_id (files w) path old) at 1 by done.
  by rewrite alter_insert_eq.
Qed.

Lemma for_each_write {A} path (line : A -> string) (l : list A) :
  forall w old,
    files w !! path = Some old ->
    for_each l (fun x => write path (line x)) w
    = Ret tt (with_file path
                (old ++ concat (map (fun x => encode (line x)) l)) w).
Proof.
  induction l as [|x l IH]; intros w old Hfile; cbn [for_each map concat].
  - rewrite app_nil_r. by rewrite with_file_same.
  - unfold bind. rewrite (write_existing path _ w old) by done.
    rewrite (IH _ (old ++ encode (line x))) by apply with_file_lookup.
    by rewrite with_file_twice, <- app_assoc.
Qed.

(** Lists can be taken apart three elements at a time. *)
Lemma list_by_three {A} (P : list A -> Prop) :
  P [] -> (forall a, P [a]) -> (forall a b, P [a; b]) ->
  (forall a b c l, P l -> P (a :: b :: c :: l)) ->
  forall l, P l.
Proof.
  intros Hnil Hone Htwo Hstep.
  assert (forall l, P l /\ (forall a, P (a :: l)) /\ (forall a b, P (a :: b :: l)))
    as Hall.
  { induction l as [|x l (H0 & H1 & H2)]; [by auto|].
    split; [apply H1|]. split; [intros a; apply H2|].
    intros a b. by apply Hstep. }
  intros l. apply Hall.
Qed.

Lemma group3_length {A} (l : list A) : len (group3 l) = len l / 3.
Proof.
  induction l as [| a | a b | a b c l IH] using list_by_three;
    [done | done | done |].
  unfold len in *. cbn [group3 length].
  rewrite !Nat2Z.inj_succ, IH.
  replace (Z.succ (Z.succ (Z.succ (Z.of_nat (length l)))))
    with (Z.of_nat (length l) + 1 * 3) by lia.
  rewrite Z.div_add by lia. lia.
Qed.

(** Face [k] is made of the indices at the positions [3k], [3k+1], [3k+2]. *)
Lemma group3_lookup {A} (l : list A) : forall (k : nat) a b c,
  group3 l !! k = Some (a, b, c) <->
  l !! (3 * k)%nat = Some a /\ l !! (3 * k + 1)%nat = Some b
  /\ l !! (3 * k + 2)%nat = Some c.
Proof.
  induction l as [| x | x y | x y z l IH] using list_by_three;
    intros k a b c.
  - split; [done|]. by intros (H & _).
  - split; [done|]. intros (_ & H & _).
    replace (3 * k + 1)%nat with (S (3 * k)) in H by lia. done.
  - split; [done|]. intros (_ & _ & H).
    replace (3 * k + 2)%nat with (S (S (3 * k))) in H by lia. done.
  - destruct k as [|k].
    + simpl. split.
      * by intros [= -> -> ->].
      * by intros ([= ->] & [= ->] & [= ->]).
    + cbn [group3]. rewrite lookup_cons. cbn [Nat.pred]. rewrite IH.
      replace (3 * S k)%nat with (S (S (S (3 * k)))) by lia.
      done.
Qed.

(** The face loop, started after the indices [done_] that were grouped
    before, writes the face lines of those that remain. *)
Lemma write_faces_from path (rest : list Z) : forall done_ w old,
  files w !! path = Some old ->
  for_each (range_from (Z.to_nat ((len rest + 2) / 3)) (len done_) 3)
    (fun i =>
       if i + 2 <? len (done_ ++ rest) then
         (a <- lift (index (done_ ++ rest) i);
          b <- lift (index (done_ ++ rest) (i + 1));
          c <- lift (index (done_ ++ rest) (i + 2));
          write path (face_line (a + 1) (b + 1) (c + 1)))%M
       else ret tt) w
  = Ret tt (with_file path (old ++ faces_text rest) w).
Proof.
  unfold faces_text.
  induction rest as [| x | x y | x y z rest IH] using list_by_three;
    intros done_ w old Hfile.
  - replace (Z.to_nat ((len (@nil Z) + 2) / 3)) with 0%nat by (by vm_compute).
    cbn [range_from for_each map concat group3]. unfold ret.
    rewrite app_nil_r. by rewrite with_file_same.
  - replace (Z.to_nat ((len [x] + 2) / 3)) with 1%nat by (by vm_compute).
    cbn [range_from for_each map concat group3]. unfold bind.
    destruct (Z.ltb_spec (len done_ + 2) (len (done_ ++ [x]))) as [Hin|Hout].
    { unfold len in Hin. rewrite length_app in Hin. simpl in Hin. lia. }
    unfold ret. rewrite app_nil_r. by rewrite with_file_same.
  - replace (Z.to_nat ((len [x; y] + 2) / 3)) with 1%nat by (by vm_compute).
    cbn [range_from for_each map concat group3]. unfold bind.
    destruct (Z.ltb_spec (len done_ + 2) (len (done_ ++ [x; y])))
      as [Hin|Hout].
    { unfold len in Hin. rewrite length_app in Hin. simpl in Hin. lia. }
    unfold ret. rewrite app_nil_r. by rewrite with_file_same.
  - replace ((len (x :: y :: z :: rest) + 2) / 3)
      with (Z.succ ((len rest + 2) / 3)).
    2:{ unfold len. cbn [length]. rewrite !Nat2Z.inj_succ.
        replace (Z.succ (Z.succ (Z.succ (Z.of_nat (length rest)))) + 2)
          with (Z.of_nat (length rest) + 2 + 1 * 3) by lia.
        rewrite Z.div_add by lia. lia. }
    rewrite Z2Nat.inj_succ
      by (apply Z.div_pos; [pose proof (len_nonneg rest); lia | lia]).
    cbn [range_from for_each]. unfold bind at 1.
    destruct (Z.ltb_spec (len done_ + 2) (len (done_ ++ x :: y :: z :: rest)))
      as [Hin|Hout].
    2:{ unfold len in Hout. rewrite length_app in Hout. simpl in Hout. lia. }
    assert (forall j (v : Z),
              [x; y; z] !! j = Some v ->
              index (done_ ++ x :: y :: z :: rest) (len done_ + Z.of_nat j)
              = Ok v) as Hindex.
    { intros j v Hj. unfold index, len.
      replace (Z.to_nat (Z.of_nat (length done_) + Z.of_nat j))
        with (length done_ + j)%nat by lia.
      rewrite lookup_app_r by lia.
      replace (length done_ + j - length done_)%nat with j by lia.
      destruct j as [|[|[|j]]]; simpl in *; by inversion Hj. }
    pose proof (Hindex 0%nat x eq_refl) as Hx.
    pose proof (Hindex 1%nat y eq_refl) as Hy.
    pose proof (Hindex 2%nat z eq_refl) as Hz.
    change (Z.of_nat 0) with 0 in Hx. rewrite Z.add_0_r in Hx.
    change (Z.of_nat 1) with 1 in Hy. change (Z.of_nat 2) with 2 in Hz.
    unfold bind at 1. rewrite Hx. cbn [lift ret].
    unfold bind at 1. rewrite Hy. cbn [lift ret].
    unfold bind at 1. rewrite Hz. cbn [lift ret].
    rewrite (write_existing path _ w old) by done.
    specialize (IH (done_ ++ [x; y; z]) (with_file path
      (old ++ encode (face_line (x + 1) (y + 1) (z + 1))) w)
      (old ++ encode (face_line (x + 1) (y + 1) (z + 1)))
      (with_file_lookup _ _ _)).
    replace (len (done_ ++ [x; y; z])) with (len done_ + 3) in IH
      by (unfold len; rewrite length_app; simpl; lia).
    rewrite <- app_assoc in IH. cbn [app] in IH.
    rewrite IH. rewrite with_file_twice. cbn [group3 map concat].
    by rewrite <- app_assoc.
Qed.

Lemma write_faces_text path indices w old :
  files w !! path = Some old ->
  write_faces path indices w
  = Ret tt (with_file path (old ++ faces_text indices) w).
Proof.
  intros Hfile. unfold write_faces, py_range.
  replace (len indices - 0 + 3 - 1) with (len indices + 2) by lia.
  apply (write_faces_from path indices [] w old Hfile).
Qed.

(** C5: the face loop of [convert_to_obj] writes one face line for each
    consecutive triple of the index sequence and nothing else, without
    raising: the number of faces is [len(indices) // 3], face [k] is made of
    the indices at the positions [3k], [3k+1] and [3k+2], and the one or two
    indices left over are dropped. An index sequence of length 7 gives
    exactly 2 faces. *)
Theorem write_faces_groups_triples path (indices : list Z) w old :
  files w !! path = Some old ->
  write_faces path indices w
  = Ret tt (with_file path (old ++ faces_text indices) w)
  /\ len (group3 indices) = len indices / 3
  /\ (forall (k : nat) a b c,
        group3 indices !! k = Some (a, b, c) <->
        indices !! (3 * k)%nat = Some a /\ indices !! (3 * k + 1)%nat = Some b
        /\ indices !! (3 * k + 2)%nat = Some c)
  /\ (len indices = 7 -> len (group3 indices) = 2).
Proof.
  intros Hfile. split; [by apply write_faces_text|].
  split; [apply group3_length|]. split; [apply group3_lookup|].
  intros Hseven. by rewrite group3_length, Hseven.
Qed.

(** C5 at an index sequence of length 7. *)
Lemma write_faces_groups_triples_witness :
  write_faces "out.obj" [0; 1; 2; 2; 1; 3; 4] (one_file "out.obj" [])
  = Ret tt (with_file "out.obj" ([] ++ faces_text [0; 1; 2; 2; 1; 3; 4])
              (one_file "out.obj" []))
  /\ group3 [0; 1; 2; 2; 1; 3; 4] = [(0, 1, 2); (2, 1, 3)].
Proof.
  split; [|reflexivity].
  apply (write_faces_groups_triples "out.obj" [0; 1; 2; 2; 1; 3; 4]
           (one_file "out.obj" []) []).
  apply lookup_singleton_eq.
Defined.

(** C6: for a non-empty list of vertex chunks the selection returns a chunk,
    without error: the one at position 1 when world space is asked for and
    there are at least two chunks, the one at position 0 in every other
    case. With one chunk and world space asked for it is that chunk. *)
Theorem select_vert_chunk_position (use_world_space : bool)
    (vert_chunks : list chunk) :
  vert_chunks <> [] ->
  (exists c,
     select_vert_chunk use_world_space vert_chunks = Ok c
     /\ vert_chunks !! (if use_world_space && bool_decide (2 <= len vert_chunks)
                        then 1%nat else 0%nat) = Some c)
  /\ (forall c, vert_chunks = [c] -> select_vert_chunk true vert_chunks = Ok c).
Proof.
  intros Hne. split.
  - unfold select_vert_chunk, vert_chunk_idx, index.
    destruct vert_chunks as [|c0 [|c1 rest]]; [done | |].
    + exists c0. by destruct use_world_space.
    + destruct use_world_space; cbn [andb].
      * exists c1.
        destruct (Z.gtb_spec (len (c0 :: c1 :: rest)) 1) as [Hgt|Hle].
        2:{ unfold len in Hle. simpl in Hle. lia. }
        rewrite bool_decide_eq_true_2; [done|].
        unfold len. simpl. lia.
      * by exists c0.
  - by intros c ->.
Qed.

(** C6 with one vertex chunk and world space asked for. *)
Lemma select_vert_chunk_position_witness :
  select_vert_chunk true [Chunk VERT 0 16 12 []] = Ok (Chunk VERT 0 16 12 []).
Proof.
  destruct (select_vert_chunk_position true [Chunk VERT 0 16 12 []])
    as (_ & Hsingle); [done|].
  by apply Hsingle.
Defined.

(** ** [convert_to_obj] *)

Section Convert.

Variable format_6f : float32 -> string.
Variable basename : string -> string.

Lemma write_obj_text nr obj ws vertices indices w :
  write_obj format_6f basename nr obj ws vertices indices w
  = Ret tt (with_file obj
              (obj_text format_6f basename nr ws vertices indices) w).
Proof.
  unfold write_obj, bind at 1, open_w.
  change {| self := self w; files := <[obj:=[]]> (files w) |}
    with (with_file obj [] w).
  unfold bind at 1.
  rewrite (write_existing obj _ _ []) by apply with_file_lookup.
  rewrite with_file_twice. unfold bind at 1.
  rewrite (write_existing obj _ _ _ (with_file_lookup _ _ _)).
  rewrite with_file_twice. unfold bind at 1.
  rewrite (write_existing obj _ _ _ (with_file_lookup _ _ _)).
  rewrite with_file_twice. unfold bind at 1.
  rewrite (for_each_write obj _ vertices _ _ (with_file_lookup _ _ _)).
  rewrite with_file_twice. unfold bind at 1.
  rewrite (write_existing obj _ _ _ (with_file_lookup _ _ _)).
  rewrite with_file_twice.
  rewrite (write_faces_text obj _ _ _ (with_file_lookup _ _ _)).
  rewrite with_file_twice. unfold obj_text.
  by rewrite <- !app_assoc.
Qed.

(** Lines 114-150 as a function of the chunk list. *)
Lemma convert_chunks_geometry nr obj ws w :
  convert_chunks format_6f basename nr obj ws w
  = match extract_geometry ws (chunks (self w)) with
    | Ok (vertices, indices) =>
        Ret tt (with_file obj
                  (obj_text format_6f basename nr ws vertices indices) w)
    | Raise e => Exc e w
    end.
Proof.
  unfold convert_chunks, extract_geometry, bind at 1 2, find_chunks.
  destruct (bool_decide _ || bool_decide _); [done|].
  unfold bind at 1.
  destruct (select_vert_chunk ws _) as [vert_chunk|e]; [|done].
  cbn [lift ret rbind]. unfold bind at 1.
  destruct (index _ 0) as [indx_chunk|e]; [|done].
  cbn [lift ret rbind]. unfold bind at 1.
  destruct (parse_vertex_data _) as [vertices|e]; [|done].
  cbn [lift ret rbind]. unfold bind at 1.
  destruct (parse_index_data _) as [indices|e]; [|done].
  cbn [lift ret rbind]. apply write_obj_text.
Qed.

(** The body of the [try] as a function of the content of the input. *)
Lemma convert_body_outcome fuel nr obj ws w :
  convert_body format_6f basename fuel nr obj ws w
  = match read_outcome fuel (files w !! nr) with
    | Some (Ok (v, cs)) =>
        let w' := with_chunks cs (with_version v (reset w)) in
        match extract_geometry ws cs with
        | Ok (vertices, indices) =>
            Ret tt (with_file obj
                      (obj_text format_6f basename nr ws vertices indices)
                      w')
        | Raise e => Exc e w'
        end
    | Some (Raise e) => Exc e (reset w)
    | None => Spin
    end.
Proof.
  unfold convert_body, bind at 1, set_chunks.
  change {| self := {| chunks := []; nr_version := nr_version (self w) |};
            files := files w |} with (reset w).
  unfold bind. rewrite read_nr_file_outcome.
  change (files (reset w)) with (files w).
  destruct (read_outcome fuel (files w !! nr)) as [[[v cs]|e]|];
    [|done|done].
  by rewrite convert_chunks_geometry.
Qed.

(** C7: when the chunk list read from the file has no chunk with the tag
    [VERT] or no chunk with the tag [INDX], the body of the [try] raises
    [ValueError("No vertex or index data found in file")], [convert_to_obj]
    catches it and returns [False], and the files are those from before the
    conversion: the output file was not opened. *)
Theorem convert_to_obj_no_geometry fuel nr obj ws w w' :
  read_nr_file fuel nr (reset w) = Ret tt w' ->
  filter (fun c => chunk_tag c = VERT) (chunks (self w')) = []
  \/ filter (fun c => chunk_tag c = INDX) (chunks (self w')) = [] ->
  convert_body format_6f basename fuel nr obj ws w
  = Exc (ValueError "No vertex or index data found in file") w'
  /\ convert_to_obj format_6f basename fuel nr obj ws w = Ret false w'
  /\ files w' = files w.
Proof.
  intros Hread Hnone.
  assert (convert_body format_6f basename fuel nr obj ws w
          = Exc (ValueError "No vertex or index data found in file") w')
    as Hbody.
  { unfold convert_body, bind at 1, set_chunks.
    change {| self := {| chunks := []; nr_version := nr_version (self w) |};
              files := files w |} with (reset w).
    unfold bind. rewrite Hread, convert_chunks_geometry.
    unfold extract_geometry.
    destruct Hnone as [-> | ->]; [done|].
    by rewrite orb_true_r. }
  split; [done|]. split.
  - unfold convert_to_obj. by rewrite Hbody.
  - apply (read_nr_file_files _ _ _ _ _ Hread).
Qed.

(** C9: two conversions of the same input bytes with the same space
    selector, by converters with any earlier chunk lists and versions and
    next to any other files, end alike: both return the same flag and leave
    the same chunk list in the converter, and both write the same output
    file when they succeed and leave the files as they were when they
    fail; or both loops fail to end. *)
Theorem convert_to_obj_independent fuel nr obj ws w1 w2 :
  files w1 !! nr = files w2 !! nr ->
  match convert_to_obj format_6f basename fuel nr obj ws w1,
        convert_to_obj format_6f basename fuel nr obj ws w2 with
  | Ret ok1 w1', Ret ok2 w2' =>
      ok1 = ok2
      /\ chunks (self w1') = chunks (self w2')
      /\ if ok1 then
           files w1' !! obj = files w2' !! obj
           /\ exists content, files w1' = <[obj := content]> (files w1)
                              /\ files w2' = <[obj := content]> (files w2)
         else files w1' = files w1 /\ files w2' = files w2
  | Spin, Spin => True
  | _, _ => False
  end.
Proof.
  intros Hsame. unfold convert_to_obj. rewrite !convert_body_outcome.
  rewrite Hsame.
  destruct (read_outcome fuel (files w2 !! nr)) as [[[v cs]|e]|];
    [|done|done].
  cbn zeta.
  destruct (extract_geometry ws cs) as [[vertices indices]|e]; [|done].
  split; [done|]. split; [done|]. split.
  - cbn. by rewrite !lookup_insert_eq.
  - by eexists.
Qed.

End Convert.

(** C7 at a file that has a header and no chunk. *)
Lemma convert_to_obj_no_geometry_witness :
  convert_to_obj bits_format id 0 "empty.nr" "empty.obj" true
    (one_file "empty.nr" header)
  = Ret false (one_file "empty.nr" header)
  /\ files (one_file "empty.nr" header) !! "empty.obj" = None.
Proof.
  split; [|by vm_compute].
  destruct (convert_to_obj_no_geometry bits_format id 0 "empty.nr" "empty.obj"
              true (one_file "empty.nr" header) (one_file "empty.nr" header))
    as (_ & Hfalse & _); [by vm_compute | by left | exact Hfalse].
Defined.

(** C9 at a mesh converted by a fresh converter and by one that has read
    another file before. *)
Lemma convert_to_obj_independent_witness :
  match convert_to_obj bits_format id 5 "tri.nr" "tri.obj" true
          (one_file "tri.nr" triangle_file),
        convert_to_obj bits_format id 5 "tri.nr" "tri.obj" true
          (used_world "tri.nr" triangle_file) with
  | Ret ok1 w1', Ret ok2 w2' =>
      ok1 = ok2
      /\ chunks (self w1') = chunks (self w2')
      /\ if ok1 then
           files w1' !! "tri.obj" = files w2' !! "tri.obj"
           /\ exists content,
                files w1' = <["tri.obj" := content]>
                              (files (one_file "tri.nr" triangle_file))
                /\ files w2' = <["tri.obj" := content]>
                                 (files (used_world "tri.nr" triangle_file))
         else files w1' = files (one_file "tri.nr" triangle_file)
              /\ files w2' = files (used_world "tri.nr" triangle_file)
  | Spin, Spin => True
  | _, _ => False
  end.
Proof.
  apply (convert_to_obj_independent bits_format id 5 "tri.nr" "tri.obj" true
           (one_file "tri.nr" triangle_file)
           (used_world "tri.nr" triangle_file)).
  by vm_compute.
Defined.

(** The mesh with 3 vertices and the indices 0, 1, 2 is converted to three
    vertex lines and the face line [f 1 2 3]. *)
Example convert_to_obj_triangle :
  exists w',
    convert_to_obj bits_format id 5 "tri.nr" "tri.obj" true
      (one_file "tri.nr" triangle_file) = Ret true w'
    /\ len (chunks (self w')) = 2
    /\ files w' !! "tri.obj"
       = Some (encode
                 ("# Converted from NinjaRipper 2 .nr file" +:+ nl
                  +:+ "# Original file: tri.nr" +:+ nl
                  +:+ "# Vertex space: World" +:+ nl +:+ nl
                  +:+ "v 0 0 0" +:+ nl
                  +:+ "v 1065353216 0 0" +:+ nl
                  +:+ "v 0 1065353216 0" +:+ nl +:+ nl
                  +:+ "f 1 2 3" +:+ nl)).
Proof. eexists. split; [by vm_compute|]. split; by vm_compute. Qed.

(** * Further properties *)

(** ** [tag_to_string] *)

Lemma byte_val_chr n :
  0 <= n < 256 -> byte_val (Ascii.byte_of_ascii (chr n)) = n.
Proof.
  intros Hn. unfold chr, byte_val.
  pose proof (Ascii.byte_of_ascii_via_N (Ascii.ascii_of_N (Z.to_N n))) as Hb.
  rewrite Ascii.N_ascii_embedding in Hb by lia.
  symmetry in Hb. apply Byte.to_of_N in Hb. rewrite Hb. lia.
Qed.

Lemma chr_byte_val b : chr (byte_val b) = Ascii.ascii_of_byte b.
Proof.
  unfold chr, byte_val. rewrite N2Z.id. symmetry.
  apply Ascii.ascii_of_byte_via_N.
Qed.

(** [(tag >> (8 * i)) & 0xFF] is digit [i] of [tag] in base 256. *)
Lemma shift_mask tag i :
  0 <= i -> Z.land (Z.shiftr tag (8 * i)) 0xFF = (tag / 2 ^ (8 * i)) mod 256.
Proof.
  intros Hi. rewrite Z.shiftr_div_pow2 by lia.
  change 0xFF with (Z.ones 8). by rewrite Z.land_ones by lia.
Qed.

Lemma tag_to_string_chars tag :
  tag_to_string tag
  = String (chr (tag mod 256))
      (String (chr ((tag / 2 ^ 8) mod 256))
         (String (chr ((tag / 2 ^ 16) mod 256))
            (String (chr ((tag / 2 ^ 24) mod 256)) EmptyString))).
Proof.
  unfold tag_to_string.
  replace (py_range 0 4 1) with [0; 1; 2; 3] by (by vm_compute).
  cbn [map string_of_list_ascii]. rewrite !shift_mask by lia.
  change (8 * 0) with 0. change (8 * 1) with 8. change (8 * 2) with 16.
  change (8 * 3) with 24. by rewrite Z.pow_0_r, Z.div_1_r.
Qed.

(** The four base-256 digits of an integer make up its residue modulo
    [2^32]. *)
Lemma base256_digits tag :
  tag mod 256 + 256 * ((tag / 2 ^ 8) mod 256
    + 256 * ((tag / 2 ^ 16) mod 256 + 256 * ((tag / 2 ^ 24) mod 256 + 256 * 0)))
  = tag mod 2 ^ 32.
Proof.
  pose proof (Z.div_mod tag 256 ltac:(lia)) as H0.
  pose proof (Z.div_mod (tag / 256) 256 ltac:(lia)) as H1.
  pose proof (Z.div_mod (tag / 256 / 256) 256 ltac:(lia)) as H2.
  pose proof (Z.div_mod (tag / 256 / 256 / 256) 256 ltac:(lia)) as H3.
  pose proof (Z.mod_pos_bound tag 256 ltac:(lia)).
  pose proof (Z.mod_pos_bound (tag / 256) 256 ltac:(lia)).
  pose proof (Z.mod_pos_bound (tag / 256 / 256) 256 ltac:(lia)).
  pose proof (Z.mod_pos_bound (tag / 256 / 256 / 256) 256 ltac:(lia)).
  change (2 ^ 8) with 256.
  replace (tag / 2 ^ 16) with (tag / 256 / 256)
    by (rewrite Z.div_div by lia; reflexivity).
  replace (tag / 2 ^ 24) with (tag / 256 / 256 / 256)
    by (rewrite !Z.div_div by lia; reflexivity).
  apply (Z.mod_unique_pos _ _ (tag / 256 / 256 / 256 / 256)); lia.
Qed.

(** X1: the string of a tag has four characters, and read back as a
    little-endian integer it is the tag modulo [2^32]: the tag itself when it
    is a 32-bit unsigned integer, as the tags read from a file are. *)
Theorem tag_to_string_le_uint tag :
  String.length (tag_to_string tag) = 4%nat
  /\ le_uint (encode (tag_to_string tag)) = tag mod 2 ^ 32
  /\ (0 <= tag < 2 ^ 32 -> le_uint (encode (tag_to_string tag)) = tag).
Proof.
  assert (le_uint (encode (tag_to_string tag)) = tag mod 2 ^ 32) as Hle.
  { rewrite tag_to_string_chars. unfold encode, list_byte_of_string.
    cbn [list_ascii_of_string List.map le_uint].
    rewrite !byte_val_chr by (apply Z.mod_pos_bound; lia).
    apply base256_digits. }
  split; [by rewrite tag_to_string_chars|]. split; [done|].
  intros Hrange. rewrite Hle. by apply Z.mod_small.
Qed.

(** X1 at the tag of the vertex chunks. *)
Lemma tag_to_string_le_uint_witness :
  le_uint (encode (tag_to_string VERT)) = VERT.
Proof.
  destruct (tag_to_string_le_uint VERT) as (_ & _ & Hsame).
  apply Hsame. by vm_compute.
Defined.

(** X2: the string of a tag read from four bytes is those four bytes, in
    the order of the file. *)
Theorem tag_to_string_bytes (bs : list byte) :
  len bs = 4 -> tag_to_string (le_uint bs) = string_of_list_byte bs.
Proof.
  intros Hlen.
  destruct bs as [|b0 [|b1 [|b2 [|b3 [|b4 bs]]]]]; try (by vm_compute in Hlen).
  2:{ unfold len in Hlen. simpl in Hlen. lia. }
  rewrite tag_to_string_chars. cbn [le_uint].
  pose proof (byte_val_range b0). pose proof (byte_val_range b1).
  pose proof (byte_val_range b2). pose proof (byte_val_range b3).
  set (v := byte_val b0 + 256 * (byte_val b1 + 256 * (byte_val b2
              + 256 * (byte_val b3 + 256 * 0)))).
  assert (v mod 256 = byte_val b0) as ->.
  { symmetry. apply (Z.mod_unique_pos _ _
      (byte_val b1 + 256 * (byte_val b2 + 256 * byte_val b3))); lia. }
  assert (v / 2 ^ 8 = byte_val b1 + 256 * (byte_val b2 + 256 * byte_val b3))
    as ->.
  { symmetry. apply (Z.div_unique_pos _ _ _ (byte_val b0)); lia. }
  assert (v / 2 ^ 16 = byte_val b2 + 256 * byte_val b3) as ->.
  { symmetry.
    apply (Z.div_unique_pos _ _ _ (byte_val b0 + 256 * byte_val b1)); lia. }
  assert (v / 2 ^ 24 = byte_val b3) as ->.
  { symmetry.
    apply (Z.div_unique_pos _ _ _
             (byte_val b0 + 256 * (byte_val b1 + 256 * byte_val b2))); lia. }
  assert ((byte_val b1 + 256 * (byte_val b2 + 256 * byte_val b3)) mod 256
          = byte_val b1) as ->.
  { symmetry.
    apply (Z.mod_unique_pos _ _ (byte_val b2 + 256 * byte_val b3)); lia. }
  assert ((byte_val b2 + 256 * byte_val b3) mod 256 = byte_val b2) as ->.
  { symmetry. apply (Z.mod_unique_pos _ _ (byte_val b3)); lia. }
  rewrite (Z.mod_small (byte_val b3)) by lia.
  by rewrite !chr_byte_val.
Qed.

(** X2 at the bytes of the tag of the index chunks. *)
Lemma tag_to_string_bytes_witness :
  tag_to_string (le_uint [x49; x4e; x44; x58]) = "INDX".
Proof. apply (tag_to_string_bytes [x49; x4e; x44; x58]). by vm_compute. Defined.

(** ** [read_nr_file]: what every run that returns leaves behind *)

Lemma u32_at_range payload off : 0 <= u32_at payload off < 2 ^ 32.
Proof.
  unfold u32_at, byte_at.
  pose proof (byte_val_range (nth (Z.to_nat off) payload x00)).
  pose proof (byte_val_range (nth (Z.to_nat (off + 1)) payload x00)).
  pose proof (byte_val_range (nth (Z.to_nat (off + 2)) payload x00)).
  pose proof (byte_val_range (nth (Z.to_nat (off + 3)) payload x00)).
  lia.
Qed.

(** A run of [read_nr_file] that returns has read a file with the magic and
    a version, and has appended the chunks of [scan]. *)
Lemma read_nr_file_returns fuel path w a w' :
  read_nr_file fuel path w = Ret a w' ->
  exists data cs,
    files w !! path = Some data /\ 8 <= len data /\ u32_at data 0 = NRIP
    /\ scan fuel data 16 = Some cs
    /\ w' = with_chunks cs (with_version (u32_at data 4) w).
Proof.
  rewrite read_nr_file_outcome. unfold read_outcome.
  destruct (files w !! path) as [data|]; [|done].
  destruct (Z.ltb_spec (len data) 4); [done|].
  destruct (Z.eqb_spec (u32_at data 0) NRIP); [|done]. cbn [negb].
  destruct (Z.ltb_spec (len data) 8); [done|].
  destruct (scan fuel data 16) as [cs|] eqn:Hscan; [|done]. cbn.
  intros [= _ <-]. exists data, cs. repeat split; (done || lia).
Qed.

Lemma slice_empty {A} (data : list A) lo hi : hi <= lo -> slice data lo hi = [].
Proof.
  intros Hle. unfold slice.
  replace (Z.to_nat (hi - lo)) with 0%nat by lia. apply take_0.
Qed.

Lemma scan_invariant fuel data : forall pos cs,
  0 <= pos -> scan fuel data pos = Some cs ->
  Forall (stored_in data pos) cs
  /\ exists stop, tiles pos cs stop /\ pos <= stop /\ len data < stop + 12.
Proof.
  induction fuel as [|fuel IH]; intros pos cs Hpos; simpl.
  - destruct (Z.ltb_spec pos (len data)).
    + destruct (Z.gtb_spec (pos + 12) (len data)); [|done].
      intros [= <-]. split; [done|]. exists pos. simpl. lia.
    + intros [= <-]. split; [done|]. exists pos. simpl. lia.
  - destruct (Z.ltb_spec pos (len data)).
    2:{ intros [= <-]. split; [done|]. exists pos. simpl. lia. }
    destruct (Z.gtb_spec (pos + 12) (len data)).
    { intros [= <-]. split; [done|]. exists pos. simpl. lia. }
    pose proof (u32_at_range data pos) as Hsize.
    destruct (scan fuel data (pos + u32_at data pos)) as [cs'|] eqn:Hscan;
      [|done].
    cbn. intros [= <-].
    destruct (IH (pos + u32_at data pos) cs')
      as (Hall & stop & Htiles & Hle & Hend); [lia | done |].
    split.
    + constructor.
      * unfold stored_in. cbn. repeat split; try lia.
        destruct (Z.gtb_spec (u32_at data pos) 12); [done|].
        symmetry. apply slice_empty. lia.
      * eapply Forall_impl; [exact Hall|].
        intros c (Hlo & Hrest). split; [lia|done].
    + exists stop. cbn. split; [done|]. lia.
Qed.


Lemma len_slice_clamped {A} (data : list A) lo hi :
  0 <= lo -> len (slice data lo hi) = Z.max 0 (Z.min hi (len data) - lo).
Proof.
  intros Hlo. unfold len, slice. rewrite length_take, length_drop. lia.
Qed.


(** X4: [read_nr_file] does not empty [self.chunks]: it appends. Reading the
    same file again with the converter as the first reading left it gives the
    chunks of the file twice. *)
Theorem read_nr_file_appends fuel path w w1 :
  read_nr_file fuel path w = Ret tt w1 ->
  exists cs w2,
    chunks (self w1) = chunks (self w) ++ cs
    /\ read_nr_file fuel path w1 = Ret tt w2
    /\ chunks (self w2) = chunks (self w) ++ cs ++ cs.
Proof.
  intros Hread.
  destruct (read_nr_file_returns _ _ _ _ _ Hread)
    as (data & cs & Hfile & Hlen & Hmagic & Hscan & ->).
  exists cs. eexists. split; [done|].
  rewrite (read_nr_file_scan fuel path _ data) by done.
  rewrite Hscan. split; [reflexivity|]. cbn. by rewrite <- app_assoc.
Qed.

(** X4 at the file with two chunks: four chunks after two readings. *)
Lemma read_nr_file_appends_witness :
  exists cs w2,
    chunks (self (with_chunks
                    [Chunk 1 0 16 12 []; Chunk 2 0 28 16 [xaa; xbb; xcc; xdd]]
                    (one_file "two.nr" two_chunk_file)))
    = chunks (self (one_file "two.nr" two_chunk_file)) ++ cs
    /\ read_nr_file 5 "two.nr"
         (with_chunks
            [Chunk 1 0 16 12 []; Chunk 2 0 28 16 [xaa; xbb; xcc; xdd]]
            (one_file "two.nr" two_chunk_file))
       = Ret tt w2
    /\ chunks (self w2)
       = chunks (self (one_file "two.nr" two_chunk_file)) ++ cs ++ cs.
Proof.
  apply (read_nr_file_appends 5 "two.nr" (one_file "two.nr" two_chunk_file)).
  by vm_compute.
Defined.

(** X5: every run of [read_nr_file] that returns has stored the version
    field, left the files alone and appended chunks that form a chain: the
    first one starts at 16, each next one starts where the previous one ends
    by its declared size, every header lies inside the file with its fields
    32-bit unsigned integers, and fewer than 12 bytes of the file lie beyond
    the declared end of the last one. *)
Theorem read_nr_file_chain fuel path w w' data :
  files w !! path = Some data ->
  read_nr_file fuel path w = Ret tt w' ->
  exists cs stop,
    chunks (self w') = chunks (self w) ++ cs
    /\ nr_version (self w') = u32_at data 4
    /\ files w' = files w
    /\ tiles 16 cs stop /\ 16 <= stop /\ len data < stop + 12
    /\ Forall (fun c =>
                 16 <= chunk_pos c /\ chunk_pos c + 12 <= len data
                 /\ 0 <= chunk_size c < 2 ^ 32 /\ 0 <= chunk_tag c < 2 ^ 32
                 /\ 0 <= chunk_idx c < 2 ^ 32) cs.
Proof.
  intros Hfile Hread.
  destruct (read_nr_file_returns _ _ _ _ _ Hread)
    as (data' & cs & Hfile' & Hlen & Hmagic & Hscan & ->).
  rewrite Hfile in Hfile'. injection Hfile' as <-.
  destruct (scan_invariant fuel data 16 cs ltac:(lia) Hscan)
    as (Hall & stop & Htiles & Hle & Hend).
  exists cs, stop. repeat split; try done.
  eapply Forall_impl; [exact Hall|].
  intros c (Hlo & Hhi & -> & -> & -> & _).
  pose proof (u32_at_range data (chunk_pos c)).
  pose proof (u32_at_range data (chunk_pos c + 4)).
  pose proof (u32_at_range data (chunk_pos c + 8)).
  lia.
Qed.

(** X5 at the file with two chunks. *)
Lemma read_nr_file_chain_witness :
  exists cs stop,
    chunks (self (with_chunks
                    [Chunk 1 0 16 12 []; Chunk 2 0 28 16 [xaa; xbb; xcc; xdd]]
                    (one_file "two.nr" two_chunk_file)))
    = chunks (self (one_file "two.nr" two_chunk_file)) ++ cs
    /\ nr_version (self (with_chunks
                    [Chunk 1 0 16 12 []; Chunk 2 0 28 16 [xaa; xbb; xcc; xdd]]
                    (one_file "two.nr" two_chunk_file)))
       = u32_at two_chunk_file 4
    /\ files (with_chunks
                [Chunk 1 0 16 12 []; Chunk 2 0 28 16 [xaa; xbb; xcc; xdd]]
                (one_file "two.nr" two_chunk_file))
       = files (one_file "two.nr" two_chunk_file)
    /\ tiles 16 cs stop /\ 16 <= stop /\ len two_chunk_file < stop + 12
    /\ Forall (fun c =>
                 16 <= chunk_pos c /\ chunk_pos c + 12 <= len two_chunk_file
                 /\ 0 <= chunk_size c < 2 ^ 32 /\ 0 <= chunk_tag c < 2 ^ 32
                 /\ 0 <= chunk_idx c < 2 ^ 32) cs.
Proof.
  apply (read_nr_file_chain 5 "two.nr" (one_file "two.nr" two_chunk_file)).
  - apply lookup_singleton_eq.
  - by vm_compute.
Defined.

(** X6: the payload stored with a chunk is the part of the file between the
    end of its header and its declared end, cut at the end of the file: it
    has at most [declaredSize - 12] bytes, exactly that many when the chunk
    ends inside the file, and none when [declaredSize] is 12 or less. *)
Theorem read_nr_file_payloads fuel path w w' data cs :
  files w !! path = Some data ->
  read_nr_file fuel path w = Ret tt w' ->
  chunks (self w') = chunks (self w) ++ cs ->
  Forall (fun c =>
            chunk_data c
            = slice data (chunk_pos c + 12) (chunk_pos c + chunk_size c)
            /\ len (chunk_data c) <= Z.max 0 (chunk_size c - 12)
            /\ (chunk_pos c + chunk_size c <= len data ->
                len (chunk_data c) = Z.max 0 (chunk_size c - 12))
            /\ (chunk_size c <= 12 -> chunk_data c = [])) cs.
Proof.
  intros Hfile Hread Hcs.
  destruct (read_nr_file_returns _ _ _ _ _ Hread)
    as (data' & cs' & Hfile' & Hlen & Hmagic & Hscan & ->).
  rewrite Hfile in Hfile'. injection Hfile' as <-.
  cbn in Hcs. apply app_inv_head in Hcs as <-.
  destruct (scan_invariant fuel data 16 cs' ltac:(lia) Hscan) as (Hall & _).
  eapply Forall_impl; [exact Hall|].
  intros c (Hlo & Hhi & _ & _ & _ & Hdata).
  split; [done|]. rewrite Hdata.
  rewrite len_slice_clamped by lia.
  split; [lia|]. split; [lia|].
  intros Hsmall. apply slice_empty. lia.
Qed.

(** X6 at the file with two chunks. *)
Lemma read_nr_file_payloads_witness :
  Forall (fun c =>
            chunk_data c
            = slice two_chunk_file (chunk_pos c + 12)
                (chunk_pos c + chunk_size c)
            /\ len (chunk_data c) <= Z.max 0 (chunk_size c - 12)
            /\ (chunk_pos c + chunk_size c <= len two_chunk_file ->
                len (chunk_data c) = Z.max 0 (chunk_size c - 12))
            /\ (chunk_size c <= 12 -> chunk_data c = []))
    [Chunk 1 0 16 12 []; Chunk 2 0 28 16 [xaa; xbb; xcc; xdd]].
Proof.
  apply (read_nr_file_payloads 5 "two.nr" (one_file "two.nr" two_chunk_file)
           (with_chunks
              [Chunk 1 0 16 12 []; Chunk 2 0 28 16 [xaa; xbb; xcc; xdd]]
              (one_file "two.nr" two_chunk_file)) two_chunk_file).
  - apply lookup_singleton_eq.
  - by vm_compute.
  - reflexivity.
Defined.



(** ** [read_nr_file]: when the loop ends *)




(** ** [read_nr_file]: what the chunks do not depend on *)

Lemma byte_at_app_r (pre rest : list byte) off :
  len pre <= off -> byte_at (pre ++ rest) off = byte_at rest (off - len pre).
Proof.
  intros Hoff. unfold byte_at, len in *. f_equal.
  rewrite app_nth2 by lia. f_equal. lia.
Qed.

Lemma u32_at_app_r (pre rest : list byte) off :
  len pre <= off -> u32_at (pre ++ rest) off = u32_at rest (off - len pre).
Proof.
  intros Hoff. unfold u32_at. rewrite !byte_at_app_r by lia.
  repeat f_equal; lia.
Qed.

Lemma slice_app_r {A} (pre rest : list A) lo hi :
  len pre <= lo -> slice (pre ++ rest) lo hi = slice rest (lo - len pre) (hi - len pre).
Proof.
  intros Hlo. unfold slice, len in *. rewrite drop_app_ge by lia.
  f_equal; [lia | f_equal; lia].
Qed.

(** The chunks from [pos] on depend on the bytes from [pos] on only. *)
Lemma scan_same_tail (pre pre' rest : list byte) fuel : forall pos,
  length pre = length pre' -> len pre <= pos ->
  scan fuel (pre ++ rest) pos = scan fuel (pre' ++ rest) pos.
Proof.
  induction fuel as [|fuel IH]; intros pos Hsame Hpos.
  - simpl. unfold len. by rewrite !length_app, Hsame.
  - assert (len pre' = len pre) as Hlen by (unfold len; lia).
    pose proof (u32_at_range (pre ++ rest) pos) as Hsize.
    cbn [scan].
    rewrite !(u32_at_app_r pre) by lia.
    rewrite !(u32_at_app_r pre') by lia.
    rewrite !(slice_app_r pre) by lia.
    rewrite !(slice_app_r pre') by lia.
    rewrite (u32_at_app_r pre) in Hsize by lia.
    rewrite Hlen. rewrite <- IH by (done || lia).
    unfold len. by rewrite !length_app, Hsame.
Qed.

Lemma u32_at_app_l (bs rest : list byte) :
  len bs = 4 -> u32_at (bs ++ rest) 0 = le_uint bs.
Proof.
  intros Hlen. rewrite <- (le_uint_at (bs ++ rest) 0 4).
  - unfold slice. cbn [Z.to_nat Z.sub Z.add Z.opp Z.pos_sub drop].
    f_equal. apply take_app_length'. unfold len in Hlen. lia.
  - lia.
  - lia.
  - unfold len in *. rewrite length_app. lia.
Qed.

(** X9: the version field does not influence the reading. Two files that
    differ in the bytes 4..8 only are both read or both not, with the same
    exception or the same chunks; the version stored is the field of each
    file, whatever its value. *)
Theorem read_nr_file_any_version fuel path w magic v v' rest :
  len magic = 4 -> len v = 4 -> len v' = 4 ->
  files w !! path = Some (magic ++ v ++ rest) ->
  match read_nr_file fuel path w,
        read_nr_file fuel path (with_file path (magic ++ v' ++ rest) w) with
  | Ret _ w1, Ret _ w2 =>
      chunks (self w1) = chunks (self w2)
      /\ nr_version (self w1) = le_uint v
      /\ nr_version (self w2) = le_uint v'
  | Exc e1 _, Exc e2 _ => e1 = e2
  | Spin, Spin => True
  | _, _ => False
  end.
Proof.
  intros Hmagic Hv Hv' Hfile.
  rewrite !read_nr_file_outcome, Hfile.
  cbn [with_file files]. rewrite lookup_insert_eq. unfold read_outcome.
  assert (forall x : list byte, len x = 4 ->
            len (magic ++ x ++ rest) = 8 + len rest) as Hlen.
  { intros x Hx. unfold len in *. rewrite !length_app. lia. }
  assert (forall x : list byte, len x = 4 ->
            u32_at (magic ++ x ++ rest) 4 = le_uint x) as Hversion.
  { intros x Hx. rewrite u32_at_app_r by lia. rewrite Hmagic.
    change (4 - 4) with 0. by apply u32_at_app_l. }
  rewrite (Hlen v Hv), (Hlen v' Hv'), (Hversion v Hv), (Hversion v' Hv').
  pose proof (len_nonneg rest).
  destruct (Z.ltb_spec (8 + len rest) 4); [lia|].
  rewrite !u32_at_app_l by done.
  destruct (negb (le_uint magic =? NRIP)); [done|].
  destruct (Z.ltb_spec (8 + len rest) 8); [lia|].
  rewrite !(app_assoc magic).
  rewrite (scan_same_tail (magic ++ v) (magic ++ v') rest fuel 16).
  - by destruct (scan fuel ((magic ++ v') ++ rest) 16).
  - unfold len in *. rewrite !length_app. lia.
  - unfold len in *. rewrite length_app. lia.
Qed.

(** X9 at the mesh file and the same file with version 9. *)
Lemma read_nr_file_any_version_witness :
  match read_nr_file 5 "tri.nr" (one_file "tri.nr" triangle_file),
        read_nr_file 5 "tri.nr"
          (with_file "tri.nr"
             ([x4e; x52; x49; x50] ++ [x09; x00; x00; x00]
                ++ drop 8 triangle_file)
             (one_file "tri.nr" triangle_file)) with
  | Ret _ w1, Ret _ w2 =>
      chunks (self w1) = chunks (self w2)
      /\ nr_version (self w1) = le_uint [x00; x00; x00; x00]
      /\ nr_version (self w2) = le_uint [x09; x00; x00; x00]
  | Exc e1 _, Exc e2 _ => e1 = e2
  | Spin, Spin => True
  | _, _ => False
  end.
Proof.
  apply (read_nr_file_any_version 5 "tri.nr" (one_file "tri.nr" triangle_file)
           [x4e; x52; x49; x50] [x00; x00; x00; x00] [x09; x00; x00; x00]
           (drop 8 triangle_file));
    [by vm_compute | by vm_compute | by vm_compute |].
  apply lookup_singleton_eq.
Defined.

Lemma u32_at_app_inside (data tail : list byte) off :
  0 <= off -> off + 4 <= len data -> u32_at (data ++ tail) off = u32_at data off.
Proof.
  intros Hoff Hin. unfold u32_at, byte_at, len in *.
  rewrite !app_nth1 by lia. reflexivity.
Qed.

Lemma slice_app_inside {A} (data tail : list A) lo hi :
  0 <= lo -> lo <= len data -> hi <= len data ->
  slice (data ++ tail) lo hi = slice data lo hi.
Proof.
  intros Hlo Hin Hhi. unfold slice, len in *.
  rewrite drop_app_le by lia. apply take_app_le. rewrite length_drop. lia.
Qed.

(** Fewer than 12 bytes after a tiled region are not looked at. *)
Lemma scan_padding data tail fuel : forall fuel' pos,
  0 <= pos -> (fuel <= fuel')%nat -> len tail < 12 ->
  chunk_stream fuel data pos = true ->
  scan fuel' (data ++ tail) pos = scan fuel' data pos.
Proof.
  assert (len (data ++ tail) = len data + len tail) as Hlen
    by (unfold len; rewrite length_app; lia).
  pose proof (len_nonneg tail) as Htail.
  assert (forall fuel', 0 <= len tail < 12 ->
            scan fuel' (data ++ tail) (len data) = scan fuel' data (len data))
    as Hend.
  { intros fuel' Hshort. destruct fuel'; simpl; rewrite Hlen, Z.ltb_irrefl;
      (destruct (Z.ltb_spec (len data) (len data + len tail)); [|done]);
      by destruct (Z.gtb_spec (len data + 12) (len data + len tail)); [|lia]. }
  induction fuel as [|fuel IH]; intros fuel' pos Hpos Hfuel Hshort; simpl.
  - destruct (Z.eqb_spec pos (len data)) as [->|]; [intros _|done].
    apply Hend. lia.
  - destruct (Z.eqb_spec pos (len data)) as [->|Hne].
    { intros _. apply Hend. lia. }
    intros Hstream. apply andb_prop in Hstream as [Hstream Hrest].
    apply andb_prop in Hstream as [Hstream Hinside].
    apply andb_prop in Hstream as [Hheader Hsize].
    apply Z.leb_le in Hheader, Hinside. apply Z.ltb_lt in Hsize.
    destruct fuel' as [|fuel']; [lia|]. cbn [scan]. rewrite Hlen.
    destruct (Z.ltb_spec pos (len data + len tail)); [|lia].
    destruct (Z.ltb_spec pos (len data)); [|lia].
    destruct (Z.gtb_spec (pos + 12) (len data + len tail)); [lia|].
    destruct (Z.gtb_spec (pos + 12) (len data)); [lia|].
    rewrite !(u32_at_app_inside data tail) by lia.
    rewrite (slice_app_inside data tail) by lia.
    rewrite IH by (done || lia). done.
Qed.

(** X10: fewer than 12 bytes of padding after the last chunk of a valid file
    change nothing: the file with the padding is read to the same version
    and the same chunks, payloads included. *)
Theorem read_nr_file_padding fuel path w data tail :
  files w !! path = Some data ->
  valid_file data = true ->
  len tail < 12 ->
  (length data <= fuel)%nat ->
  exists w1,
    read_nr_file fuel path w = Ret tt w1
    /\ read_nr_file fuel path (with_file path (data ++ tail) w)
       = Ret tt (with_file path (data ++ tail) w1).
Proof.
  intros Hfile Hvalid Hshort Hfuel. unfold valid_file in Hvalid.
  apply andb_prop in Hvalid as [Hvalid Hstream].
  apply andb_prop in Hvalid as [Hlen Hmagic].
  apply Z.leb_le in Hlen. apply Z.eqb_eq in Hmagic.
  destruct (chunk_stream_scan (length data) data fuel 16)
    as (cs & Hcs & _); [lia | done | done |].
  eexists. rewrite (read_nr_file_scan fuel path w data) by (done || lia).
  rewrite Hcs. split; [reflexivity|].
  rewrite (read_nr_file_scan fuel path _ (data ++ tail)).
  - rewrite (scan_padding data tail (length data)) by (done || lia).
    rewrite Hcs. by rewrite (u32_at_app_inside data tail) by lia.
  - apply with_file_lookup.
  - unfold len in *. rewrite length_app. lia.
  - by rewrite (u32_at_app_inside data tail) by lia.
Qed.

(** X10 at the file with two chunks and 3 bytes of padding. *)
Lemma read_nr_file_padding_witness :
  exists w1,
    read_nr_file 44 "two.nr" (one_file "two.nr" two_chunk_file) = Ret tt w1
    /\ read_nr_file 44 "two.nr"
         (with_file "two.nr" (two_chunk_file ++ [x00; x00; x00])
            (one_file "two.nr" two_chunk_file))
       = Ret tt (with_file "two.nr" (two_chunk_file ++ [x00; x00; x00]) w1).
Proof.
  apply (read_nr_file_padding 44 "two.nr" (one_file "two.nr" two_chunk_file)
           two_chunk_file [x00; x00; x00]).
  - apply lookup_singleton_eq.
  - by vm_compute.
  - by vm_compute.
  - by vm_compute.
Defined.

(** ** The number of vertices and of indices *)

Lemma take_while_fits_length stride limit n : forall k,
  0 < stride -> 0 <= k ->
  len (take_while (fun i => 8 + i * stride + 12 <=? limit) (range_from n k 1))
  = Z.min (Z.of_nat n) (Z.max 0 ((limit - 20) / stride + 1 - k)).
Proof.
  induction n as [|n IH]; intros k Hstride Hk; cbn [range_from take_while].
  - unfold len. simpl. lia.
  - destruct (Z.leb_spec (8 + k * stride + 12) limit) as [Hfit|Hcut].
    + assert (k <= (limit - 20) / stride)
        by (apply Z.div_le_lower_bound; lia).
      unfold len in *. cbn [length]. rewrite Nat2Z.inj_succ, IH by lia. lia.
    + assert ((limit - 20) / stride < k)
        by (apply Z.div_lt_upper_bound; lia).
      unfold len. simpl. lia.
Qed.

(** X11: with a positive stride, [parse_vertex_data] returns as many
    vertices as the count field says or as many 12-byte positions as lie
    whole in the payload at the offsets 8, 8 + stride, ..., whichever is
    less; none when the count is 0 or the payload has fewer than 20 bytes. *)
Theorem parse_vertex_data_length payload :
  8 <= len payload ->
  0 < u32_at payload 4 ->
  exists vs,
    parse_vertex_data payload = Ok vs
    /\ len vs = Z.min (u32_at payload 0)
                  (Z.max 0 ((len payload - 20) / u32_at payload 4 + 1))
    /\ (u32_at payload 0 = 0 \/ len payload < 20 -> vs = []).
Proof.
  intros Hlen Hstride. exists (decodeVertices payload).
  split; [apply parse_vertex_data_ref|].
  assert (len (decodeVertices payload)
          = Z.min (u32_at payload 0)
              (Z.max 0 ((len payload - 20) / u32_at payload 4 + 1))) as Hcount.
  { unfold decodeVertices. destruct (Z.ltb_spec (len payload) 8); [lia|].
    unfold len at 1. rewrite length_map. fold (len (take_while
      (fun i => 8 + i * u32_at payload 4 + 12 <=? len payload)
      (range_from (Z.to_nat (u32_at payload 0)) 0 1))).
    rewrite take_while_fits_length by lia.
    pose proof (u32_at_nonneg payload 0). lia. }
  split; [done|].
  intros Hnone.
  assert (len (decodeVertices payload) = 0) as Hzero.
  { rewrite Hcount. destruct Hnone as [-> | Hshort].
    - pose proof (Z.le_max_l 0 ((len payload - 20) / u32_at payload 4 + 1)).
      lia.
    - assert ((len payload - 20) / u32_at payload 4 < 0)
        by (apply Z.div_lt_upper_bound; lia).
      pose proof (u32_at_nonneg payload 0). lia. }
  destruct (decodeVertices payload); [done|]. unfold len in Hzero.
  simpl in Hzero. lia.
Qed.

(** X11 at the payload with two records of 20 bytes cut after 30 bytes. *)
Lemma parse_vertex_data_length_witness :
  exists vs,
    parse_vertex_data truncated_payload = Ok vs
    /\ len vs = Z.min (u32_at truncated_payload 0)
                  (Z.max 0 ((len truncated_payload - 20)
                            / u32_at truncated_payload 4 + 1))
    /\ (u32_at truncated_payload 0 = 0 \/ len truncated_payload < 20 ->
        vs = []).
Proof.
  apply (parse_vertex_data_length truncated_payload); by vm_compute.
Defined.

Lemma take_while_index_length limit n : forall k,
  0 <= k ->
  len (take_while (fun i => 8 + 4 * i + 4 <=? limit) (range_from n k 1))
  = Z.min (Z.of_nat n) (Z.max 0 ((limit - 8) / 4 - k)).
Proof.
  induction n as [|n IH]; intros k Hk; cbn [range_from take_while].
  - unfold len. simpl. lia.
  - destruct (Z.leb_spec (8 + 4 * k + 4) limit) as [Hfit|Hcut].
    + assert (k + 1 <= (limit - 8) / 4)
        by (apply Z.div_le_lower_bound; lia).
      unfold len in *. cbn [length]. rewrite Nat2Z.inj_succ, IH by lia. lia.
    + assert ((limit - 8) / 4 < k + 1)
        by (apply Z.div_lt_upper_bound; lia).
      unfold len. simpl. lia.
Qed.

(** X12: [parse_index_data] returns, for a payload of at least 8 bytes, as
    many indices as the count field says or as many whole 4-byte integers as
    the payload has after its first 8 bytes, whichever is less; index [i] is
    the integer at offset [8 + 4*i], and every index is a 32-bit unsigned
    integer. A shorter payload gives no index. *)
Theorem parse_index_data_length payload :
  exists indices,
    parse_index_data payload = Ok indices
    /\ (len payload < 8 -> indices = [])
    /\ (8 <= len payload ->
        len indices = Z.min (u32_at payload 0) ((len payload - 8) / 4))
    /\ (forall (i : nat) x,
          indices !! i = Some x ->
          x = u32_at payload (8 + 4 * Z.of_nat i) /\ 0 <= x < 2 ^ 32).
Proof.
  exists (decodeIndices payload). split; [apply parse_index_data_ref|].
  split; [|split].
  - intros Hshort. unfold decodeIndices.
    destruct (Z.to_nat (u32_at payload 0)); [done|].
    cbn [range_from take_while].
    by destruct (Z.leb_spec (8 + 4 * 0 + 4) (len payload)); [lia|].
  - intros Hlen. unfold decodeIndices. unfold len at 1. rewrite length_map.
    fold (len (take_while (fun i => 8 + 4 * i + 4 <=? len payload)
                 (range_from (Z.to_nat (u32_at payload 0)) 0 1))).
    rewrite take_while_index_length by lia.
    pose proof (u32_at_nonneg payload 0).
    assert (0 <= (len payload - 8) / 4) by (apply Z.div_pos; lia). lia.
  - intros i x. unfold decodeIndices. rewrite list_lookup_fmap.
    destruct (take_while _ _ !! i) as [k|] eqn:Hk; [|done].
    apply take_while_range_lookup in Hk. subst k. cbn.
    intros [= <-]. split; [do 2 f_equal; lia | apply u32_at_range].
Qed.

(** X12 at the index payload with count 3 and three indices. *)
Lemma parse_index_data_length_witness :
  exists indices,
    parse_index_data index_payload = Ok indices /\ len indices = 3.
Proof.
  destruct (parse_index_data_length index_payload)
    as (indices & Hparse & _ & Hcount & _).
  exists indices. split; [done|]. rewrite Hcount; by vm_compute.
Defined.

(** ** [convert_to_obj]: when it succeeds and what it writes *)

Lemma select_vert_chunk_local c0 rest :
  select_vert_chunk false (c0 :: rest) = Ok c0.
Proof. reflexivity. Qed.

Lemma select_vert_chunk_world c0 rest :
  select_vert_chunk true (c0 :: rest)
  = Ok (match rest with [] => c0 | c1 :: _ => c1 end).
Proof.
  unfold select_vert_chunk, vert_chunk_idx, index. cbn [andb].
  destruct rest as [|c1 rest]; [done|].
  destruct (Z.gtb_spec (len (c0 :: c1 :: rest)) 1) as [Hgt|Hle]; [done|].
  unfold len in Hle. simpl in Hle. lia.
Qed.

(** The only error of lines 115-133 is the absence of a vertex or of an
    index chunk; the payloads are decoded whatever they hold. *)
Lemma extract_geometry_cases cs :
  match filter (fun c => chunk_tag c = VERT) cs,
        filter (fun c => chunk_tag c = INDX) cs with
  | v0 :: vrest, i0 :: _ =>
      extract_geometry false cs
      = Ok (decodeVertices (chunk_data v0), decodeIndices (chunk_data i0))
      /\ extract_geometry true cs
         = Ok (decodeVertices
                 (chunk_data (match vrest with [] => v0 | v1 :: _ => v1 end)),
               decodeIndices (chunk_data i0))
  | _, _ =>
      forall ws,
        extract_geometry ws cs
        = Raise (ValueError "No vertex or index data found in file")
  end.
Proof.
  unfold extract_geometry.
  destruct (filter (fun c => chunk_tag c = VERT) cs) as [|v0 vrest];
    [done|].
  destruct (filter (fun c => chunk_tag c = INDX) cs) as [|i0 irest];
    [done|].
  rewrite !(bool_decide_eq_false_2 (_ :: _ = [])) by done. cbn [orb].
  rewrite select_vert_chunk_local, select_vert_chunk_world.
  change (index (i0 :: irest) 0) with (Ok i0). cbn [rbind].
  rewrite !parse_vertex_data_ref, !parse_index_data_ref. done.
Qed.


Section ConvertMore.

Variable format_6f : float32 -> string.
Variable basename : string -> string.



(** X15: a conversion that succeeds leaves in the output file, whatever was
    there before, the three comment lines, one vertex line for each vertex
    decoded from the selected vertex chunk, an empty line and the face lines
    of the indices decoded from the first index chunk. The selected vertex
    chunk is the second one with the tag [VERT] when world space is asked for
    and there are two, the first one otherwise. *)
Theorem convert_to_obj_output fuel nr obj ws w w' :
  convert_to_obj format_6f basename fuel nr obj ws w = Ret true w' ->
  exists vert_chunk indx_chunk,
    filter (fun c => chunk_tag c = VERT) (chunks (self w'))
      !! (if ws && bool_decide
                     (2 <= len (filter (fun c => chunk_tag c = VERT)
                                  (chunks (self w'))))
          then 1%nat else 0%nat) = Some vert_chunk
    /\ filter (fun c => chunk_tag c = INDX) (chunks (self w')) !! 0%nat
       = Some indx_chunk
    /\ files w' !! obj
       = Some (obj_text format_6f basename nr ws
                 (decodeVertices (chunk_data vert_chunk))
                 (decodeIndices (chunk_data indx_chunk))).
Proof.
  unfold convert_to_obj. rewrite convert_body_outcome.
  destruct (read_outcome fuel (files w !! nr)) as [[[v cs]|e]|]; [|done|done].
  cbn zeta. pose proof (extract_geometry_cases cs) as Hcases.
  destruct (filter (fun c => chunk_tag c = VERT) cs) as [|v0 vrest] eqn:Hv.
  { by rewrite Hcases. }
  destruct (filter (fun c => chunk_tag c = INDX) cs) as [|i0 irest] eqn:Hi.
  { by rewrite Hcases. }
  destruct Hcases as [Hlocal Hworld].
  destruct ws.
  - rewrite Hworld. intros [= <-]. cbn [with_file with_chunks with_version reset self chunks app].
    rewrite Hv, Hi.
    exists (match vrest with [] => v0 | v1 :: _ => v1 end), i0.
    split; [|split; [done|by rewrite with_file_lookup]].
    cbn [andb]. destruct vrest as [|v1 vrest].
    + by rewrite bool_decide_eq_false_2 by (by vm_compute).
    + rewrite bool_decide_eq_true_2; [done|]. unfold len. simpl. lia.
  - rewrite Hlocal. intros [= <-]. cbn [with_file with_chunks with_version reset self chunks app].
    rewrite Hv, Hi. exists v0, i0.
    split; [done|]. split; [done|by rewrite with_file_lookup].
Qed.

(** X16: when [read_nr_file] raises - the file is missing, too short for
    the magic and the version, or has another magic - the conversion returns
    [False], and leaves the chunk list empty and the files as they were. *)
Theorem convert_to_obj_read_error fuel nr obj ws w e w1 :
  read_nr_file fuel nr (reset w) = Exc e w1 ->
  convert_to_obj format_6f basename fuel nr obj ws w = Ret false (reset w)
  /\ chunks (self (reset w)) = [] /\ files (reset w) = files w.
Proof.
  rewrite read_nr_file_outcome. change (files (reset w)) with (files w).
  unfold convert_to_obj. rewrite convert_body_outcome.
  by destruct (read_outcome fuel (files w !! nr)) as [[[v cs]|e']|].
Qed.

End ConvertMore.

(** ** [process_file] *)

Section BatchMore.

Variable format_6f : float32 -> string.
Variable basename : string -> string.
Variable parent : string -> string.
Variable stem : string -> string.
Variable join : string -> string -> string.




End BatchMore.



(** X15 at the mesh file. *)
Lemma convert_to_obj_output_witness :
  exists w' vert_chunk indx_chunk,
    convert_to_obj bits_format id 5 "tri.nr" "tri.obj" true
      (one_file "tri.nr" triangle_file) = Ret true w'
    /\ files w' !! "tri.obj"
       = Some (obj_text bits_format id "tri.nr" true
                 (decodeVertices (chunk_data vert_chunk))
                 (decodeIndices (chunk_data indx_chunk))).
Proof.
  eexists.
  assert (convert_to_obj bits_format id 5 "tri.nr" "tri.obj" true
            (one_file "tri.nr" triangle_file) = Ret true _) as Hrun
    by (vm_compute; reflexivity).
  destruct (convert_to_obj_output bits_format id 5 "tri.nr" "tri.obj" true
              _ _ Hrun) as (vert_chunk & indx_chunk & _ & _ & Hout).
  exists vert_chunk, indx_chunk. by split.
Defined.

(** X16 at a path that names no file. *)
Lemma convert_to_obj_read_error_witness :
  convert_to_obj bits_format id 5 "missing.nr" "out.obj" true
    (one_file "tri.nr" triangle_file)
  = Ret false (reset (one_file "tri.nr" triangle_file)).
Proof.
  destruct (convert_to_obj_read_error bits_format id 5 "missing.nr" "out.obj"
              true (one_file "tri.nr" triangle_file) FileNotFoundError
              (reset (one_file "tri.nr" triangle_file)))
    as (Hfalse & _); [by vm_compute | exact Hfalse].
Defined.



(** ** A first chunk of size 0 *)


